(** * MassResponseToTemp: the month-code table, the stack index, the raster
      point sampler, the species filter and the per-species regression loop

    A shallow embedding of [Analysis_VN_CY.py] (and of the functions that
    [DatasetAnalysis_VN.py] shares with it word for word).

    Conventions of the embedding.
    - Python integers are [Z]; Python floats are idealised as exact
      rationals [Q] (the inputs of the counterexamples are dyadic, so that
      the float computation is exact on them, too).
    - A Python exception is a value of [PyError]; code that may raise lives
      in the monad [result].
    - A [dict] is an association list in insertion order.
    - A data frame is the list of its rows, a column a projection of a row.
      Missing values are not modelled: every row carries its species label,
      class, year, coordinates and mass.
    - The raster is what [gdal] returns for it: the geotransform and, per
      band, the array of packed values with its offset and scale.
    - [smf.ols(...).fit()] is a parameter of the regression loop.
    - The plots ([plt], [PdfPages]) and the CSV files are not modelled. *)

From Stdlib Require Import ZArith QArith Qround Qabs List String Bool Lia.
From Stdlib Require Import Permutation.
Import ListNotations.

Local Open Scope string_scope.
Local Open Scope Z_scope.

(** ** Exceptions and the error monad *)

Inductive PyError : Type :=
| ValueError        (* range() arg 3 must not be zero; cannot convert NaN *)
| KeyError          (* missing dict key *)
| IndexError        (* index out of bounds *)
| AttributeError    (* method call on None *)
| OverflowError     (* int() of an infinite float *)
| FitError.         (* whatever the least-squares library raises *)

Inductive result (A : Type) : Type :=
| Ok (a : A)
| Raise (e : PyError).

Arguments Ok {A} a.
Arguments Raise {A} e.

Definition bind {A B : Type} (m : result A) (k : A -> result B) : result B :=
  match m with
  | Ok a => k a
  | Raise e => Raise e
  end.

Notation "x <- m ;; k" := (bind m (fun x => k))
  (at level 61, m at next level, right associativity).

Definition of_option {A : Type} (e : PyError) (o : option A) : result A :=
  match o with
  | Some a => Ok a
  | None => Raise e
  end.

(** [out = []; for a in l: out.append(f(a))], where [f] may raise. *)
Definition append_loop {A B : Type} (f : A -> result B) (l : list A)
  : result (list B) :=
  fold_left (fun acc a => out <- acc ;; b <- f a ;; Ok (out ++ [b])%list)
            l (Ok []).

(** ** Python built-ins used by the scripts *)

(** [len(range(start, stop, step))] for a nonzero [step], as CPython
    computes it. *)
Definition range_len (start stop step : Z) : Z :=
  if 0 <? step
  then (if start <? stop then (stop - start - 1) / step + 1 else 0)
  else (if stop <? start then (start - stop - 1) / (- step) + 1 else 0).

(** [range(start, stop, step)]; a zero step raises [ValueError]. *)
Definition py_range (start stop step : Z) : result (list Z) :=
  if step =? 0 then Raise ValueError
  else Ok (map (fun k => start + Z.of_nat k * step)
               (seq 0 (Z.to_nat (range_len start stop step)))).

(** [calendar.month_name]: index 0 is the empty string. *)
Definition calendar_month_name : list string :=
  [ ""; "January"; "February"; "March"; "April"; "May"; "June"; "July";
    "August"; "September"; "October"; "November"; "December" ].

(** A [dict] with string keys, in insertion order. *)
Definition dict (V : Type) : Type := list (string * V).

(** [d[k] = v]: an existing key keeps its place, a new one goes last. *)
Fixpoint dict_set {V : Type} (d : dict V) (k : string) (v : V) : dict V :=
  match d with
  | [] => [(k, v)]
  | (k', v') :: d' =>
      if String.eqb k' k then (k', v) :: d' else (k', v') :: dict_set d' k v
  end.

Fixpoint dict_get {V : Type} (d : dict V) (k : string) : option V :=
  match d with
  | [] => None
  | (k', v') :: d' => if String.eqb k' k then Some v' else dict_get d' k
  end.

(** [d[k]] as an expression: a missing key raises [KeyError]. *)
Definition dict_lookup {V : Type} (d : dict V) (k : string) : result V :=
  of_option KeyError (dict_get d k).

Definition dict_keys {V : Type} (d : dict V) : list string := map fst d.

(** ** [create_month_codes_dict] *)

(** The first loop: [month_names.append(calendar.month_name[each_month])]
    for [each_month] in [range(1, 13)]. *)
Definition month_names : list string :=
  fold_left (fun acc each_month =>
               (acc ++ [nth each_month calendar_month_name ""])%list)
            (seq 1 12) [].

Definition create_month_codes_dict (jan_code dec_code diff : Z)
  : result (dict Z) :=
  codes <- py_range jan_code dec_code diff ;;
  Ok (fold_left (fun month_codes mc => dict_set month_codes (fst mc) (snd mc))
                (combine month_names codes) []).

(** ** [get_stackID] *)

Definition get_stackID (year month_code : Z) : Z :=
  let stackID := year * 12 - month_code in
  stackID.

(** The same expression on a pandas column: [int64] arithmetic wraps. *)
Definition int64_wrap (z : Z) : Z := (z + 2 ^ 63) mod 2 ^ 64 - 2 ^ 63.

Definition get_stackID_int64 (year month_code : Z) : Z :=
  int64_wrap (get_stackID year month_code).

(** ** The raster: what [gdal] hands to [get_temps_list] *)

(** A two-dimensional [numpy] array of packed integers. *)
Record ndarray : Type := mk_ndarray {
  shape0 : nat;                 (* rows *)
  shape1 : nat;                 (* columns *)
  item : nat -> nat -> Z        (* row, column; read below the shape only *)
}.

(** One index of [a[y, x]] on an axis of length [n]: a negative index counts
    from the end, anything outside [-n, n) is out of bounds. *)
Definition axis_index (n : nat) (i : Z) : option nat :=
  if (0 <=? i) && (i <? Z.of_nat n) then Some (Z.to_nat i)
  else if (- Z.of_nat n <=? i) && (i <? 0) then Some (Z.to_nat (i + Z.of_nat n))
  else None.

Definition ndarray_getitem (a : ndarray) (y x : Z) : result Z :=
  r <- of_option IndexError (axis_index (shape0 a) y) ;;
  c <- of_option IndexError (axis_index (shape1 a) x) ;;
  Ok (item a r c).

Record Band : Type := mk_Band {
  ReadAsArray : ndarray;
  GetOffset : Q;
  GetScale : Q
}.

(** The six coefficients of [GetGeoTransform()], by position. *)
Record GeoTransform : Type := mk_GeoTransform {
  geotrans_0 : Q;   (* origin x *)
  geotrans_1 : Q;   (* pixel width *)
  geotrans_2 : Q;
  geotrans_3 : Q;   (* origin y *)
  geotrans_4 : Q;
  geotrans_5 : Q    (* pixel height *)
}.

Record Dataset : Type := mk_Dataset {
  GetGeoTransform : GeoTransform;
  raster_bands : list Band
}.

(** Bands are numbered from 1; for any other number [gdal] returns [None]. *)
Definition GetRasterBand (open_file : Dataset) (b : Z) : option Band :=
  if 1 <=? b then nth_error (raster_bands open_file) (Z.to_nat (b - 1))
  else None.

(** [int(q)]: truncation toward zero. *)
Definition py_int (q : Q) : Z := Z.quot (Qnum q) (Z.pos (Qden q)).

(** [int(a / b)] on floats: a zero divisor gives an infinity or a NaN, which
    [int] refuses. *)
Definition int_of_quotient (a b : Q) : result Z :=
  if Qeq_bool b 0
  then Raise (if Qeq_bool a 0 then ValueError else OverflowError)
  else Ok (py_int (a / b)).

(** ** [get_temps_list] *)

(** The body of the loop for entry [i]. *)
Definition get_temp (open_file : Dataset) (coordinates : list (Q * Q))
  (bands : list Z) (i : nat) : result Q :=
  band_i <- of_option IndexError (nth_error bands i) ;;
  let single_band := GetRasterBand open_file band_i in
  let geotrans_raster := GetGeoTransform open_file in
  xy <- of_option IndexError (nth_error coordinates i) ;;
  x <- int_of_quotient (fst xy - geotrans_0 geotrans_raster)
                       (geotrans_1 geotrans_raster) ;;
  y <- int_of_quotient (snd xy - geotrans_3 geotrans_raster)
                       (geotrans_5 geotrans_raster) ;;
  band <- of_option AttributeError single_band ;;
  let band_array := ReadAsArray band in
  packed_temp <- ndarray_getitem band_array y x ;;
  let add_offset := GetOffset band in
  let scale_factor := GetScale band in
  let unpacked_temp := (add_offset + inject_Z packed_temp * scale_factor)%Q in
  Ok unpacked_temp.

Definition get_temps_list (open_file : Dataset) (coordinates : list (Q * Q))
  (bands : list Z) : result (list Q) :=
  append_loop (get_temp open_file coordinates bands)
              (seq 0 (List.length bands)).

(** The two quotients of the conversion from map to pixel coordinates. *)
Definition col_quotient (open_file : Dataset) (xy : Q * Q) : Q :=
  ((fst xy - geotrans_0 (GetGeoTransform open_file))
   / geotrans_1 (GetGeoTransform open_file))%Q.

Definition row_quotient (open_file : Dataset) (xy : Q * Q) : Q :=
  ((snd xy - geotrans_3 (GetGeoTransform open_file))
   / geotrans_5 (GetGeoTransform open_file))%Q.

(** The conversion as the specification words it: the floor of the quotient
    for the column and for the row. *)
Definition floor_col (open_file : Dataset) (xy : Q * Q) : Z :=
  Qfloor (col_quotient open_file xy).

Definition floor_row (open_file : Dataset) (xy : Q * Q) : Z :=
  Qfloor (row_quotient open_file xy).

(** What the code computes for them, [x] and [y] of the loop. *)
Definition int_col (open_file : Dataset) (xy : Q * Q) : Z :=
  py_int (col_quotient open_file xy).

Definition int_row (open_file : Dataset) (xy : Q * Q) : Z :=
  py_int (row_quotient open_file xy).

Definition decode (band : Band) (packed_value : Z) : Q :=
  (GetOffset band + inject_Z packed_value * GetScale band)%Q.

(** An entry inside the raster: its band exists, the pixel sizes are not
    zero, and its row and column fall inside the band array. *)
Definition in_raster (open_file : Dataset) (xy : Q * Q) (b : Z) : bool :=
  match GetRasterBand open_file b with
  | Some band =>
      negb (Qeq_bool (geotrans_1 (GetGeoTransform open_file)) 0)
      && negb (Qeq_bool (geotrans_5 (GetGeoTransform open_file)) 0)
      && (0 <=? int_row open_file xy)
      && (int_row open_file xy <? Z.of_nat (shape0 (ReadAsArray band)))
      && (0 <=? int_col open_file xy)
      && (int_col open_file xy <? Z.of_nat (shape1 (ReadAsArray band)))
  | None => false
  end.

(** The reading of the specification: a run that returns has sampled every
    entry at the floor row and the floor column. *)
Definition samples_at_floor (open_file : Dataset) (coordinates : list (Q * Q))
  (bands : list Z) : Prop :=
  forall out, get_temps_list open_file coordinates bands = Ok out ->
  forall i xy b band,
    nth_error coordinates i = Some xy ->
    nth_error bands i = Some b ->
    GetRasterBand open_file b = Some band ->
    exists packed_value v,
      ndarray_getitem (ReadAsArray band) (floor_row open_file xy)
                      (floor_col open_file xy) = Ok packed_value /\
      nth_error out i = Some v /\
      (v == decode band packed_value)%Q.

(** A one-band raster of one row and two columns, [[10, 20]], with its
    origin at (0, 0) and pixels of size 1, and a point half a pixel left of
    the origin. *)
Definition raster_1x2 : Dataset :=
  mk_Dataset (mk_GeoTransform 0 1 0 0 0 1)
    [ mk_Band (mk_ndarray 1 2 (fun _ c => match c with O => 10 | _ => 20 end))
              0 1 ].

Definition left_of_origin : Q * Q := ((- (1 # 2))%Q, 0%Q).

(** ** Data frames *)

(** [Series.unique()] and [drop_duplicates()]: the first occurrence of every
    value, in order of appearance. *)
Definition unique_step {A : Type} (eqb : A -> A -> bool) (seen : list A)
  (a : A) : list A :=
  if existsb (eqb a) seen then seen else (seen ++ [a])%list.

Definition unique {A : Type} (eqb : A -> A -> bool) (l : list A) : list A :=
  fold_left (unique_step eqb) l [].

(** How many elements of [s] equal [a]. *)
Definition occurrences {A : Type} (eqb : A -> A -> bool) (a : A) (s : list A)
  : nat :=
  List.length (filter (eqb a) s).

Fixpoint insert_sorted (s : string) (l : list string) : list string :=
  match l with
  | [] => [s]
  | t :: l' => if String.leb s t then s :: l else t :: insert_sorted s l'
  end.

Definition sort_strings (l : list string) : list string :=
  fold_right insert_sorted [] l.

(** [dataframe.groupby(col)]: one group per distinct label, labels sorted,
    the rows of a group in their order in the frame. *)
Definition groupby {Row : Type} (dataframe : list Row) (col : Row -> string)
  : list (string * list Row) :=
  map (fun label => (label, filter (fun r => String.eqb (col r) label) dataframe))
      (sort_strings (unique String.eqb (map col dataframe))).

(** [values.isin(labels)] for one value. *)
Definition isin (label : string) (labels : list string) : bool :=
  existsb (String.eqb label) labels.

(** [len(species_data["row_index"].unique())] *)
Definition n_unique_row_index {Row : Type} (row_index_col : Row -> Z)
  (species_data : list Row) : nat :=
  List.length (unique Z.eqb (map row_index_col species_data)).

(** ** [remove_species] *)

Definition remove_species {Row : Type} (row_index_col : Row -> Z)
  (dataframe : list Row) (species_col : Row -> string) : list Row :=
  let insufficient_species :=
    fold_left
      (fun insufficient g =>
         if (n_unique_row_index row_index_col (snd g) <? 30)%nat
         then (insufficient ++ [fst g])%list
         else insufficient)
      (groupby dataframe species_col) [] in
  let sufficient_species_df :=
    filter (fun r => Bool.eqb (isin (species_col r) insufficient_species) false)
           dataframe in
  sufficient_species_df.

(** The distinct row-index count of the group of [label] in a frame. *)
Definition individuals_of {Row : Type} (row_index_col : Row -> Z)
  (dataframe : list Row) (species_col : Row -> string) (label : string) : nat :=
  n_unique_row_index row_index_col
    (filter (fun r => String.eqb (species_col r) label) dataframe).

(** The distinct row-index count in the words of the specification: how
    many different values the column [row_index] of a group holds. It is
    stated with the library's [nodup] and [NoDup], not with the [unique] of
    the code. *)
Definition distinct_row_index_count {Row : Type} (row_index_col : Row -> Z)
  (group : list Row) : nat :=
  List.length (nodup Z.eq_dec (map row_index_col group)).

(** ** The rows of the script's frames *)

(** A row of [individual_data] as read from the CSV file. *)
Record Specimen : Type := mk_Specimen {
  row_index : Z;
  clean_genus_species : string;
  class : string;
  year : Z;
  longitude : Q;
  decimallatitude : Q;
  mass : Q
}.

(** A row of [temp_lookup] before the temperatures are added. *)
Record LookupKey : Type := mk_LookupKey {
  key_longitude : Q;
  key_decimallatitude : Q;
  key_stackID_july : Z
}.

(** Rows are compared by value, floats as numbers. *)
Definition key_eqb (k1 k2 : LookupKey) : bool :=
  Qeq_bool (key_longitude k1) (key_longitude k2)
  && Qeq_bool (key_decimallatitude k1) (key_decimallatitude k2)
  && (key_stackID_july k1 =? key_stackID_july k2).

(** A row of [individual_data] with its column [stackID_july]. *)
Record Individual : Type := mk_Individual {
  specimen : Specimen;
  stackID_july : Z
}.

Definition lookup_key (r : Individual) : LookupKey :=
  mk_LookupKey (longitude (specimen r)) (decimallatitude (specimen r))
               (stackID_july r).

(** A row of [temp_lookup] with its column [july_temps]. *)
Record LookupTemp : Type := mk_LookupTemp {
  temp_key : LookupKey;
  lookup_july_temps : Q
}.

(** A row of [temp_data] and of [stats_data]. *)
Record TempRow : Type := mk_TempRow {
  individual : Individual;
  july_temps : Q
}.

Definition species_of (r : TempRow) : string :=
  clean_genus_species (specimen (individual r)).

Definition row_index_of (r : TempRow) : Z :=
  row_index (specimen (individual r)).

(** [left.merge(right)]: the inner join on the columns the two frames share,
    here longitude, latitude and stack index. The rows are produced in the
    order of the left frame; no property below depends on that order. *)
Definition merge (left : list Individual) (right : list LookupTemp)
  : list TempRow :=
  flat_map
    (fun l =>
       map (fun r => mk_TempRow l (lookup_july_temps r))
           (filter (fun r => key_eqb (lookup_key l) (temp_key r)) right))
    left.

Definition Qlt_bool (a b : Q) : bool := negb (Qle_bool b a).

(** ** The script up to the regressions *)

Definition add_stackID_july (individual_data : list Specimen)
  : result (list Individual) :=
  month_codes <- create_month_codes_dict 22799 22787 (-1) ;;
  july <- dict_lookup month_codes "July" ;;
  Ok (map (fun s => mk_Individual s (get_stackID_int64 (year s) july))
          individual_data).

Definition drop_duplicates (temp_lookup : list LookupKey) : list LookupKey :=
  unique key_eqb temp_lookup.

(** [temp_lookup["july_temps"] = ...]: the column must be as long as the
    frame. *)
Definition set_july_temps (temp_lookup : list LookupKey) (temps : list Q)
  : result (list LookupTemp) :=
  if (List.length temps =? List.length temp_lookup)%nat
  then Ok (map (fun kt => mk_LookupTemp (fst kt) (snd kt))
               (combine temp_lookup temps))
  else Raise ValueError.

Definition sample_temp_lookup (temp_file : Dataset)
  (temp_lookup : list LookupKey) : result (list LookupTemp) :=
  temps <- get_temps_list temp_file
             (map (fun k => (key_longitude k, key_decimallatitude k)) temp_lookup)
             (map key_stackID_july temp_lookup) ;;
  set_july_temps temp_lookup temps.

Definition make_temp_data (temp_file : Dataset)
  (individual_data : list Specimen) : result (list TempRow) :=
  individual_data <- add_stackID_july individual_data ;;
  let temp_lookup := map lookup_key individual_data in
  let temp_lookup := drop_duplicates temp_lookup in
  temp_lookup <- sample_temp_lookup temp_file temp_lookup ;;
  let temp_data := merge individual_data temp_lookup in
  Ok temp_data.

Definition make_stats_data (temp_file : Dataset)
  (individual_data : list Specimen) : result (list TempRow) :=
  temp_data <- make_temp_data temp_file individual_data ;;
  let temp_data := filter (fun r => Qlt_bool (july_temps r) 3276) temp_data in
  let stats_data := remove_species row_index_of temp_data species_of in
  Ok stats_data.

(** ** [lin_reg] *)

(** What the script reads off a fitted model: [rsquared] and [params[1]].
    [Stat] is the type of these floats, which may be NaN. *)
Record OLSResults (Stat : Type) : Type := mk_OLSResults {
  rsquared : Stat;
  params_1 : Stat
}.

Arguments mk_OLSResults {Stat} _ _.
Arguments rsquared {Stat} _.
Arguments params_1 {Stat} _.

(** [smf.ols(formula, data).fit()] on the (predictor, response) pairs of a
    group: the library is outside the repository, so the loop takes it as a
    parameter; it returns a fitted model or raises. *)
Definition ols_fit (Stat : Type) : Type :=
  list (Q * Q) -> result (OLSResults Stat).

Record Summary (Stat : Type) : Type := mk_Summary {
  genus_species : string;
  summary_class : string;
  individuals : nat;
  hemisphere : string;
  temp_r_squared : Stat;
  temp_slope : Stat;
  lat_r_squared : Stat;
  lat_slope : Stat
}.

Arguments mk_Summary {Stat} _ _ _ _ _ _ _ _.
Arguments genus_species {Stat} _.
Arguments summary_class {Stat} _.
Arguments individuals {Stat} _.
Arguments hemisphere {Stat} _.
Arguments temp_r_squared {Stat} _.
Arguments temp_slope {Stat} _.
Arguments lat_r_squared {Stat} _.
Arguments lat_slope {Stat} _.

Definition mean (l : list Q) : Q :=
  (fold_left Qplus l 0 / inject_Z (Z.of_nat (List.length l)))%Q.

(** The data of the two formulas, [mass ~ july_temps] and
    [mass ~ abs(decimallatitude)]. *)
Definition temp_points (species_data : list TempRow) : list (Q * Q) :=
  map (fun r => (july_temps r, mass (specimen (individual r)))) species_data.

Definition lat_points (species_data : list TempRow) : list (Q * Q) :=
  map (fun r => (Qabs (decimallatitude (specimen (individual r))),
                 mass (specimen (individual r)))) species_data.

(** The body of the loop for one group. *)
Definition lin_reg_group {Stat : Type} (ols : ols_fit Stat)
  (g : string * list TempRow) : result (Summary Stat) :=
  let species := fst g in
  let species_data := snd g in
  let sp_class :=
    unique String.eqb (map (fun r => class (specimen (individual r)))
                           species_data) in
  sp_class <- of_option IndexError (nth_error sp_class 0) ;;
  temp_linreg <- ols (temp_points species_data) ;;
  let hemisphere :=
    if Qlt_bool (mean (map (fun r => decimallatitude (specimen (individual r)))
                           species_data)) 0
    then "south" else "north" in
  lat_linreg <- ols (lat_points species_data) ;;
  Ok (mk_Summary species sp_class
        (n_unique_row_index row_index_of species_data) hemisphere
        (rsquared temp_linreg) (params_1 temp_linreg)
        (rsquared lat_linreg) (params_1 lat_linreg)).

Definition lin_reg {Stat : Type} (ols : ols_fit Stat)
  (dataset : list TempRow) (speciesID_col : TempRow -> string)
  : result (list (Summary Stat)) :=
  append_loop (lin_reg_group ols) (groupby dataset speciesID_col).

(** The whole of [Analysis_VN_CY.py]: the two frames it writes out. *)
Definition analysis {Stat : Type} (ols : ols_fit Stat) (temp_file : Dataset)
  (individual_data : list Specimen)
  : result (list (Summary Stat) * list TempRow) :=
  stats_data <- make_stats_data temp_file individual_data ;;
  species_stats <- lin_reg ols stats_data species_of ;;
  Ok (species_stats, stats_data).

(** A group is degenerate for a regression when its predictor takes fewer
    than two distinct values. *)
Definition n_distinct (l : list Q) : nat := List.length (unique Qeq_bool l).

Definition degenerate (species_data : list TempRow) : Prop :=
  (n_distinct (map fst (temp_points species_data)) < 2)%nat \/
  (n_distinct (map fst (lat_points species_data)) < 2)%nat.

(** The behaviour the specification asks of the loop on a data set: every
    degenerate group is left without a summary, and the run completes. *)
Definition guards_degenerate_groups {Stat : Type} (ols : ols_fit Stat)
  (dataset : list TempRow) (speciesID_col : TempRow -> string) : Prop :=
  forall species species_data,
    In (species, species_data) (groupby dataset speciesID_col) ->
    degenerate species_data ->
    exists stats,
      lin_reg ols dataset speciesID_col = Ok stats /\
      ~ In species (map genus_species stats).

(** ** [DatasetAnalysis_VN.py]: the regressions per lag *)

(** [out = []; for a in l: out.extend(f(a))], where [f] may raise. *)
Definition extend_loop {A B : Type} (f : A -> result (list B)) (l : list A)
  : result (list B) :=
  fold_left (fun acc a => out <- acc ;; bs <- f a ;; Ok (out ++ bs)%list)
            l (Ok []).

(** What the two functions read in a frame: the columns [mass],
    [july_temps] and [decimallatitude], and the column [lag] when the frame
    has one. *)
Class Frame (Row : Type) : Type := {
  mass_col : Row -> Q;
  july_temps_col : Row -> Q;
  decimallatitude_col : Row -> Q;
  lag_column : option (Row -> Z)
}.

(** The frames of the script have the seven columns read from the CSV file,
    [stackID_july] and [july_temps]: none is named [lag]. *)
#[export] Instance TempRow_Frame : Frame TempRow := {
  mass_col := fun r => mass (specimen (individual r));
  july_temps_col := july_temps;
  decimallatitude_col := fun r => decimallatitude (specimen (individual r));
  lag_column := None
}.

Fixpoint insert_sorted_Z (z : Z) (l : list Z) : list Z :=
  match l with
  | [] => [z]
  | t :: l' => if z <=? t then z :: l else t :: insert_sorted_Z z l'
  end.

Definition sort_Z (l : list Z) : list Z := fold_right insert_sorted_Z [] l.

(** [groupby] on a column of integers. *)
Definition groupby_Z {Row : Type} (dataframe : list Row) (col : Row -> Z)
  : list (Z * list Row) :=
  map (fun key => (key, filter (fun r => col r =? key) dataframe))
      (sort_Z (unique Z.eqb (map col dataframe))).

Module TempStat.
Record row (Stat : Type) : Type := mk {
  genus_species : string;
  past_year : Z;
  r_squared : Stat;
  slope : Stat
}.
Arguments mk {Stat} _ _ _ _.
Arguments genus_species {Stat} _.
Arguments past_year {Stat} _.
Arguments r_squared {Stat} _.
Arguments slope {Stat} _.
End TempStat.

Module LatStat.
Record row (Stat : Type) : Type := mk {
  genus_species : string;
  hemisphere : string;
  r_squared : Stat;
  slope : Stat
}.
Arguments mk {Stat} _ _ _ _.
Arguments genus_species {Stat} _.
Arguments hemisphere {Stat} _.
Arguments r_squared {Stat} _.
Arguments slope {Stat} _.
End LatStat.

(** The data of [mass ~ july_temps] in any frame. *)
Definition frame_temp_points {Row : Type} `{Frame Row} (data : list Row)
  : list (Q * Q) :=
  map (fun r => (july_temps_col r, mass_col r)) data.

Definition frame_lat_points {Row : Type} `{Frame Row} (data : list Row)
  : list (Q * Q) :=
  map (fun r => (Qabs (decimallatitude_col r), mass_col r)) data.

(** The body of the inner loop of [linear_regression_temp]: a group of one
    lag is fitted when it has more than 15 rows. *)
Definition linear_regression_temp_lag {Row : Type} `{Frame Row} {Stat : Type}
  (ols : ols_fit Stat) (species : string)
  (stats_list : list (TempStat.row Stat)) (g : Z * list Row)
  : result (list (TempStat.row Stat)) :=
  let lag := fst g in
  let lag_data := snd g in
  if (15 <? List.length lag_data)%nat
  then
    linreg <- ols (frame_temp_points lag_data) ;;
    Ok (stats_list
        ++ [TempStat.mk species lag (rsquared linreg) (params_1 linreg)])%list
  else Ok stats_list.

(** The body of the outer loop. [lag_col] is the column that the name
    [lag_col] selects in the frame, [None] when there is none of that name:
    [groupby] then raises [KeyError]. The frame made of [stats_list] has
    the column [past_year], which the plot reads, only when [stats_list] is
    not empty. *)
Definition linear_regression_temp_species {Row : Type} `{Frame Row}
  {Stat : Type} (ols : ols_fit Stat) (lag_col : option (Row -> Z))
  (g : string * list Row) : result (list (TempStat.row Stat)) :=
  let species := fst g in
  let species_data := snd g in
  lag <- of_option KeyError lag_col ;;
  stats_list <-
    fold_left (fun acc lag_group =>
                 stats_list <- acc ;;
                 linear_regression_temp_lag ols species stats_list lag_group)
              (groupby_Z species_data lag) (Ok []) ;;
  let stats_df := stats_list in
  match stats_df with
  | [] => Raise KeyError
  | _ :: _ => Ok stats_df
  end.

Definition linear_regression_temp {Row : Type} `{Frame Row} {Stat : Type}
  (ols : ols_fit Stat) (dataset : list Row) (speciesID_col : Row -> string)
  (lag_col : option (Row -> Z)) : result (list (TempStat.row Stat)) :=
  extend_loop (linear_regression_temp_species ols lag_col)
              (groupby dataset speciesID_col).

(** The body of the loop of [linear_regression_lat]: the hemisphere is that
    of all the rows of the species, the fit is on its rows of lag 0. *)
Definition linear_regression_lat_species {Row : Type} `{Frame Row}
  {Stat : Type} (ols : ols_fit Stat) (g : string * list Row)
  : result (LatStat.row Stat) :=
  let species := fst g in
  let species_data := snd g in
  let hemisphere :=
    if Qlt_bool (mean (map decimallatitude_col species_data)) 0
    then "south" else "north" in
  lag <- of_option KeyError lag_column ;;
  let species_data_lim := filter (fun r => lag r =? 0) species_data in
  linreg <- ols (frame_lat_points species_data_lim) ;;
  Ok (LatStat.mk species hemisphere (rsquared linreg) (params_1 linreg)).

Definition linear_regression_lat {Row : Type} `{Frame Row} {Stat : Type}
  (ols : ols_fit Stat) (dataset : list Row) (speciesID_col : Row -> string)
  : result (list (LatStat.row Stat)) :=
  append_loop (linear_regression_lat_species ols)
              (groupby dataset speciesID_col).

(** The loop that counts the individuals of every species. *)
Definition species_occurrences (stats_data : list TempRow)
  : list (string * nat) :=
  fold_left (fun counted g =>
               (counted
                ++ [(fst g, n_unique_row_index row_index_of (snd g))])%list)
            (groupby stats_data species_of) [].

(** The whole of [DatasetAnalysis_VN.py]: the four frames it writes out. *)
Definition dataset_analysis {Stat : Type} (ols : ols_fit Stat)
  (temp_file : Dataset) (individual_data : list Specimen)
  : result (list (string * nat) * list (TempStat.row Stat)
            * list (LatStat.row Stat) * list TempRow) :=
  stats_data <- make_stats_data temp_file individual_data ;;
  temp_stats <- linear_regression_temp ols stats_data species_of lag_column ;;
  lat_stats <- linear_regression_lat ols stats_data species_of ;;
  let num_individuals := species_occurrences stats_data in
  Ok (num_individuals, temp_stats, lat_stats, stats_data).

(** ** Sample inputs *)

(** Simple least squares in exact arithmetic, with [None] for a statistic
    that is 0/0; it stands for a fit that never raises. *)
Definition sum_Q (l : list Q) : Q := fold_left Qplus l 0%Q.

Definition ratio (a b : Q) : option Q :=
  if Qeq_bool b 0 then None else Some (a / b)%Q.

Definition least_squares : ols_fit (option Q) :=
  fun points =>
    let mx := mean (map fst points) in
    let my := mean (map snd points) in
    let sxx := sum_Q (map (fun p => (fst p - mx) * (fst p - mx))%Q points) in
    let syy := sum_Q (map (fun p => (snd p - my) * (snd p - my))%Q points) in
    let sxy := sum_Q (map (fun p => (fst p - mx) * (snd p - my))%Q points) in
    Ok (mk_OLSResults (ratio (sxy * sxy) (sxx * syy)) (ratio sxy sxx)).

(** The same fit, raising when the predictor is constant. *)
Definition strict_least_squares : ols_fit (option Q) :=
  fun points =>
    if (n_distinct (map fst points) <? 2)%nat then Raise FitError
    else least_squares points.

(** [n] individuals of one species, all from the same place and month, with
    the same sampled temperature. *)
Definition one_site (n : nat) (label : string) : list TempRow :=
  map (fun i => mk_TempRow
                  (mk_Individual
                     (mk_Specimen (Z.of_nat i) label "Mammalia" 1990
                                  (10 # 1) (45 # 1) (inject_Z (Z.of_nat i)))
                     1087)
                  (20 # 1))
      (seq 0 n).

Definition thirty_at_one_site : list TempRow := one_site 30 "Mus musculus".

(** A raster of twelve monthly bands (the year 1900) of two rows and two
    columns, its upper left corner at (0, 2), pixels of size 1; packed
    values are tenths of a degree, and the lower right pixel of every band
    holds the missing-data value 32767. *)
Definition year_1900 : Dataset :=
  mk_Dataset (mk_GeoTransform 0 1 0 2 0 (-1))
    (map (fun b => mk_Band
                     (mk_ndarray 2 2
                        (fun r c => match r, c with
                                    | S _, S _ => 32767
                                    | _, _ => Z.of_nat (100 + 10 * r + c + b)
                                    end))
                     0 (1 # 10))
         (seq 1 12)).

(** Three specimens collected in 1900: two at the same place, one in the
    pixel without data. *)
Definition three_specimens : list Specimen :=
  [ mk_Specimen 1 "Mus musculus" "Mammalia" 1900 (1 # 2) (3 # 2) 20;
    mk_Specimen 2 "Mus musculus" "Mammalia" 1900 (2 # 4) (3 # 2) 22;
    mk_Specimen 3 "Sorex araneus" "Mammalia" 1900 (3 # 2) (1 # 2) 9 ].

(** Two points in the upper row of [year_1900], looked up in the bands of
    July and August. *)
Definition two_points : list (Q * Q) := [ (1 # 2, 3 # 2)%Q; (3 # 2, 3 # 2)%Q ].

Definition july_august : list Z := [7; 8].

(** Thirty-one specimens of one species collected in 1900: thirty in the
    upper left pixel, one in the pixel without data. *)
Definition specimens_1900 : list Specimen :=
  (map (fun i => mk_Specimen (Z.of_nat i) "Mus musculus" "Mammalia" 1900
                             (1 # 2) (3 # 2) (inject_Z (Z.of_nat (20 + i))))
       (seq 0 30)
   ++ [ mk_Specimen 30 "Mus musculus" "Mammalia" 1900 (3 # 2) (1 # 2) 25 ])%list.

Definition temp_data_1900 : list TempRow :=
  Eval vm_compute in
    match make_temp_data year_1900 specimens_1900 with
    | Ok temp_data => temp_data
    | Raise _ => []
    end.

Definition stats_data_1900 : list TempRow :=
  Eval vm_compute in
    match make_stats_data year_1900 specimens_1900 with
    | Ok stats_data => stats_data
    | Raise _ => []
    end.

(** A frame with a column [lag], as the functions of
    [DatasetAnalysis_VN.py] expect it. *)
Record LagRow : Type := mk_LagRow {
  lag_row : TempRow;
  lag : Z
}.

#[export] Instance LagRow_Frame : Frame LagRow := {
  mass_col := fun r => mass (specimen (individual (lag_row r)));
  july_temps_col := fun r => july_temps (lag_row r);
  decimallatitude_col :=
    fun r => decimallatitude (specimen (individual (lag_row r)));
  lag_column := Some lag
}.

Definition lag_species (r : LagRow) : string := species_of (lag_row r).

(** Forty-seven rows of one species: sixteen of lag 0, sixteen of lag 1 and
    fifteen of lag 2, with temperatures 0, 1, 2, ... and masses 0, 1, 4,
    ... *)
Definition lagged_rows : list LagRow :=
  map (fun i => mk_LagRow
                  (mk_TempRow
                     (mk_Individual
                        (mk_Specimen (Z.of_nat i) "Mus musculus" "Mammalia"
                                     1990 (10 # 1) (45 # 1)
                                     (inject_Z (Z.of_nat (i * i))))
                        1087)
                     (inject_Z (Z.of_nat i)))
                  (Z.of_nat (i / 16)))
      (seq 0 47).

Definition temp_stats_lagged : list (TempStat.row (option Q)) :=
  Eval vm_compute in
    match linear_regression_temp least_squares lagged_rows lag_species
                                 lag_column with
    | Ok all_stats => all_stats
    | Raise _ => []
    end.

Definition lat_stats_lagged : list (LatStat.row (option Q)) :=
  Eval vm_compute in
    match linear_regression_lat least_squares lagged_rows lag_species with
    | Ok stats => stats
    | Raise _ => []
    end.

Definition species_stats_1900 : list (Summary (option Q)) :=
  Eval vm_compute in
    match analysis least_squares year_1900 specimens_1900 with
    | Ok (species_stats, _) => species_stats
    | Raise _ => []
    end.

(** * Properties *)

(** ** The error monad and the append loop *)

Lemma append_loop_from {A B : Type} (f : A -> result B) (l : list A)
  (acc : list B) :
  fold_left (fun acc a => out <- acc ;; b <- f a ;; Ok (out ++ [b])%list)
            l (Ok acc)
  = (out <- append_loop f l ;; Ok (acc ++ out)%list).
Proof.
  unfold append_loop. revert acc.
  induction l as [| a l IH]; intros acc; simpl.
  - now rewrite app_nil_r.
  - destruct (f a) as [b | e]; simpl.
    + rewrite (IH (acc ++ [b])%list), (IH [b]).
      destruct (fold_left _ l (Ok [])) as [out | e]; simpl; [| reflexivity].
      now rewrite <- app_assoc.
    + clear IH. induction l as [| a' l IH]; simpl; auto.
Qed.

Lemma append_loop_cons {A B : Type} (f : A -> result B) (a : A) (l : list A) :
  append_loop f (a :: l)
  = (b <- f a ;; out <- append_loop f l ;; Ok (b :: out)).
Proof.
  unfold append_loop at 1. simpl.
  destruct (f a) as [b | e]; simpl.
  - apply (append_loop_from f l [b]).
  - induction l as [| a' l IH]; simpl; auto.
Qed.

Lemma append_loop_Ok {A B : Type} (f : A -> result B) (l : list A)
  (out : list B) :
  append_loop f l = Ok out <-> Forall2 (fun a b => f a = Ok b) l out.
Proof.
  revert out. induction l as [| a l IH]; intros out.
  - split.
    + intros H. injection H as <-. constructor.
    + intros H. inversion H. reflexivity.
  - rewrite append_loop_cons. split.
    + destruct (f a) as [b | e] eqn:Ea; simpl; [| discriminate].
      destruct (append_loop f l) as [bs | e]; simpl; [| discriminate].
      intros H. injection H as <-. constructor; [assumption |].
      now apply IH.
    + intros H. inversion H as [| a' b l' bs Hb Hbs]; subst.
      rewrite Hb. simpl. apply IH in Hbs. now rewrite Hbs.
Qed.

Lemma append_loop_Raise {A B : Type} (f : A -> result B) (l : list A)
  (e : PyError) :
  append_loop f l = Raise e -> exists a, In a l /\ f a = Raise e.
Proof.
  induction l as [| a l IH].
  - discriminate.
  - rewrite append_loop_cons.
    destruct (f a) as [b | e'] eqn:Ea; simpl.
    + destruct (append_loop f l) as [bs | e'']; simpl; [discriminate |].
      intros H. injection H as ->.
      destruct IH as [a' [Hin Ha']]; [reflexivity |].
      exists a'. split; [now right | assumption].
    + intros H. injection H as ->. exists a. split; [now left | assumption].
Qed.

Lemma Forall2_nth_error {A B : Type} (P : A -> B -> Prop) (l : list A)
  (l' : list B) :
  Forall2 P l l' ->
  forall i a, nth_error l i = Some a ->
    exists b, nth_error l' i = Some b /\ P a b.
Proof.
  induction 1 as [| a0 b0 l l' Hab _ IH]; intros i a Hi.
  - destruct i; discriminate.
  - destruct i as [| i]; simpl in *.
    + injection Hi as <-. eauto.
    + eauto.
Qed.

(** ** [range] *)

Lemma range_len_nonneg (start stop step : Z) :
  step <> 0 -> 0 <= range_len start stop step.
Proof.
  intros Hs. unfold range_len.
  destruct (0 <? step) eqn:Hpos.
  - apply Z.ltb_lt in Hpos.
    destruct (start <? stop) eqn:Hlt; [| lia].
    apply Z.ltb_lt in Hlt.
    assert (0 <= (stop - start - 1) / step) by (apply Z.div_pos; lia). lia.
  - apply Z.ltb_ge in Hpos.
    destruct (stop <? start) eqn:Hlt; [| lia].
    apply Z.ltb_lt in Hlt.
    assert (0 <= (start - stop - 1) / (- step)) by (apply Z.div_pos; lia). lia.
Qed.

(** The closed form is the count of the terms [start + k * step] that lie
    before [stop] in the direction of the step. *)
Lemma range_len_spec (start stop step k : Z) :
  step <> 0 -> 0 <= k ->
  (k < range_len start stop step <->
   if 0 <? step then start + k * step < stop else stop < start + k * step).
Proof.
  intros Hs Hk. unfold range_len.
  destruct (0 <? step) eqn:Hpos.
  - apply Z.ltb_lt in Hpos.
    destruct (start <? stop) eqn:Hlt.
    + apply Z.ltb_lt in Hlt.
      pose proof (Z.div_mod (stop - start - 1) step ltac:(lia)) as Hdm.
      pose proof (Z.mod_pos_bound (stop - start - 1) step Hpos) as Hb.
      split; intros H; nia.
    + apply Z.ltb_ge in Hlt. split; intros H; nia.
  - apply Z.ltb_ge in Hpos.
    destruct (stop <? start) eqn:Hlt.
    + apply Z.ltb_lt in Hlt.
      pose proof (Z.div_mod (start - stop - 1) (- step) ltac:(lia)) as Hdm.
      pose proof (Z.mod_pos_bound (start - stop - 1) (- step) ltac:(lia)) as Hb.
      split; intros H; nia.
    + apply Z.ltb_ge in Hlt. split; intros H; nia.
Qed.

Lemma py_range_Ok (start stop step : Z) :
  step <> 0 ->
  py_range start stop step
  = Ok (map (fun k => start + Z.of_nat k * step)
            (seq 0 (Z.to_nat (range_len start stop step)))).
Proof.
  intros Hs. unfold py_range.
  destruct (step =? 0) eqn:E; [apply Z.eqb_eq in E; contradiction | reflexivity].
Qed.

(** ** Dictionaries *)

Lemma dict_set_fresh {V : Type} (d : dict V) (k : string) (v : V) :
  ~ In k (dict_keys d) -> dict_set d k v = (d ++ [(k, v)])%list.
Proof.
  induction d as [| [k' v'] d IH]; simpl; intros Hk.
  - reflexivity.
  - destruct (String.eqb_spec k' k) as [-> | Hne].
    + exfalso. apply Hk. now left.
    + f_equal. apply IH. intros Hin. apply Hk. now right.
Qed.

Lemma fold_dict_set_fresh {V : Type} (kvs acc : dict V) :
  NoDup (dict_keys acc ++ dict_keys kvs) ->
  fold_left (fun d kv => dict_set d (fst kv) (snd kv)) kvs acc
  = (acc ++ kvs)%list.
Proof.
  revert acc. induction kvs as [| [k v] kvs IH]; intros acc Hnd; simpl.
  - now rewrite app_nil_r.
  - simpl in Hnd.
    rewrite dict_set_fresh.
    + rewrite IH.
      * now rewrite <- app_assoc.
      * unfold dict_keys in *. rewrite map_app, <- app_assoc. exact Hnd.
    + apply NoDup_remove_2 in Hnd. intros Hin. apply Hnd.
      apply in_or_app. now left.
Qed.

Lemma keys_combine {V : Type} (names : list string) (vs : list V) :
  dict_keys (combine names vs) = firstn (List.length vs) names.
Proof.
  revert vs. induction names as [| n names IH]; intros [| v vs]; simpl;
    try reflexivity.
  f_equal. apply IH.
Qed.

Lemma firstn_In {A : Type} (n : nat) (l : list A) (a : A) :
  In a (firstn n l) -> In a l.
Proof.
  revert n. induction l as [| b l IH]; intros [| n]; simpl; try tauto.
  intros [-> | Hin]; [now left | right; eauto].
Qed.

Lemma NoDup_firstn {A : Type} (n : nat) (l : list A) :
  NoDup l -> NoDup (firstn n l).
Proof.
  revert n. induction l as [| a l IH]; intros [| n] Hnd; simpl;
    try constructor.
  - inversion Hnd as [| a' l' Hnotin Hl]; subst.
    intros Hin. apply Hnotin. eapply firstn_In; eassumption.
  - inversion Hnd; subst. now apply IH.
Qed.

Lemma dict_get_combine {V : Type} (names : list string) (vs : list V)
  (k : nat) (name : string) :
  NoDup names ->
  nth_error names k = Some name ->
  dict_get (combine names vs) name = nth_error vs k.
Proof.
  revert vs k. induction names as [| n names IH]; intros vs k Hnd Hk.
  - destruct k; discriminate.
  - inversion Hnd as [| n' names' Hnotin Hnd']; subst.
    destruct vs as [| v vs]; simpl.
    + now destruct k.
    + destruct k as [| k]; simpl in *.
      * injection Hk as ->. now rewrite String.eqb_refl.
      * destruct (String.eqb_spec n name) as [-> | Hne].
        -- exfalso. apply Hnotin. eapply nth_error_In; eassumption.
        -- now apply IH.
Qed.

(** ** The month-code table *)

Lemma month_names_eq :
  month_names
  = [ "January"; "February"; "March"; "April"; "May"; "June"; "July";
      "August"; "September"; "October"; "November"; "December" ].
Proof. reflexivity. Qed.

Lemma month_names_NoDup : NoDup month_names.
Proof.
  rewrite month_names_eq.
  repeat (constructor; [simpl; intuition discriminate |]).
  constructor.
Qed.

(** The table is the months zipped with the codes: no key is set twice. *)
Lemma create_month_codes_dict_combine (jan_code dec_code diff : Z) :
  diff <> 0 ->
  create_month_codes_dict jan_code dec_code diff
  = Ok (combine month_names
          (map (fun k => jan_code + Z.of_nat k * diff)
               (seq 0 (Z.to_nat (range_len jan_code dec_code diff))))).
Proof.
  intros Hd. unfold create_month_codes_dict.
  rewrite (py_range_Ok _ _ _ Hd). cbn [bind].
  rewrite fold_dict_set_fresh; [reflexivity |].
  unfold dict_keys at 1. cbn [map app].
  rewrite keys_combine. apply NoDup_firstn, month_names_NoDup.
Qed.

Lemma nth_month_name (k : nat) :
  (k < 12)%nat -> nth_error month_names k = Some (nth k month_names "").
Proof.
  intros Hk. apply nth_error_nth'. rewrite month_names_eq. simpl. exact Hk.
Qed.

(** C3. With [jan_code = 22799], [dec_code = 22787] and [diff = -1] the
    table builder returns twelve entries, the month names in calendar order,
    January with 22799 down to December with 22788: month [k], counted from
    January as 0, has the code [22799 - k]. *)
Theorem C3_month_codes_22799 :
  create_month_codes_dict 22799 22787 (-1)
  = Ok [ ("January", 22799); ("February", 22798); ("March", 22797);
         ("April", 22796); ("May", 22795); ("June", 22794); ("July", 22793);
         ("August", 22792); ("September", 22791); ("October", 22790);
         ("November", 22789); ("December", 22788) ]
  /\ create_month_codes_dict 22799 22787 (-1)
     = Ok (combine month_names
             (map (fun k => 22799 - Z.of_nat k) (seq 0 12)))
  /\ range_len 22799 22787 (-1) = 12.
Proof.
  repeat split; reflexivity.
Qed.

(** C5. For all integers [year] and [month_code], [get_stackID] returns
    [year * 12 - month_code]; the result is a function of the two arguments
    alone, and [get_stackID 2010 22788] is 1332. *)
Theorem C5_get_stackID (year month_code : Z) :
  get_stackID year month_code = year * 12 - month_code
  /\ get_stackID 2010 22788 = 1332.
Proof.
  split.
  - unfold get_stackID. reflexivity.
  - reflexivity.
Qed.

(** C8. For a nonzero [diff] whose sequence from [jan_code] toward
    [dec_code] has [n < 12] values, the table builder raises nothing and
    returns a table whose keys are the first [n] month names in calendar
    order, month [k < n] with the code [jan_code + k * diff]; the months
    from [n] on have no entry. *)
Theorem C8_short_sequence (jan_code dec_code diff : Z) :
  diff <> 0 ->
  range_len jan_code dec_code diff < 12 ->
  let n := Z.to_nat (range_len jan_code dec_code diff) in
  exists month_codes,
    create_month_codes_dict jan_code dec_code diff = Ok month_codes /\
    List.length month_codes = n /\
    dict_keys month_codes = firstn n month_names /\
    (forall k, (k < n)%nat ->
       dict_get month_codes (nth k month_names "")
       = Some (jan_code + Z.of_nat k * diff)) /\
    (forall k, (n <= k < 12)%nat ->
       dict_get month_codes (nth k month_names "") = None).
Proof.
  intros Hd Hlen n.
  pose proof (range_len_nonneg jan_code dec_code diff Hd) as Hnn.
  assert (Hn : (n < 12)%nat) by (unfold n; lia).
  set (codes := map (fun k => jan_code + Z.of_nat k * diff) (seq 0 n)).
  assert (Hcodes : List.length codes = n)
    by (unfold codes; now rewrite length_map, length_seq).
  exists (combine month_names codes). repeat split.
  - apply create_month_codes_dict_combine; assumption.
  - rewrite length_combine, Hcodes.
    change (List.length month_names) with 12%nat. lia.
  - now rewrite keys_combine, Hcodes.
  - intros k Hk.
    rewrite (dict_get_combine month_names codes k).
    + unfold codes. rewrite nth_error_map, nth_error_seq.
      destruct (Nat.ltb_spec k n); [reflexivity | lia].
    + apply month_names_NoDup.
    + apply nth_month_name. lia.
  - intros k [Hlo Hhi].
    rewrite (dict_get_combine month_names codes k).
    + apply nth_error_None. lia.
    + apply month_names_NoDup.
    + now apply nth_month_name.
Qed.

Lemma C8_short_sequence_witness :
  exists month_codes,
    create_month_codes_dict 1 4 1 = Ok month_codes /\
    List.length month_codes = 3%nat /\
    dict_keys month_codes = ["January"; "February"; "March"] /\
    (forall k, (k < 3)%nat ->
       dict_get month_codes (nth k month_names "") = Some (1 + Z.of_nat k * 1)) /\
    (forall k, (3 <= k < 12)%nat ->
       dict_get month_codes (nth k month_names "") = None).
Proof.
  apply (C8_short_sequence 1 4 1); [discriminate | reflexivity].
Defined.

(** C10. For every [jan_code], [dec_code] and nonzero [diff] the table
    builder returns a table of at most twelve entries whose keys are month
    names, also when the sequence has more than twelve values: the table is
    the month names zipped with the codes, so a code beyond the twelfth is
    stored under no key. *)
Theorem C10_at_most_twelve (jan_code dec_code diff : Z) :
  diff <> 0 ->
  exists month_codes codes,
    py_range jan_code dec_code diff = Ok codes /\
    create_month_codes_dict jan_code dec_code diff = Ok month_codes /\
    (List.length month_codes <= 12)%nat /\
    incl (dict_keys month_codes) month_names /\
    month_codes = combine month_names (firstn 12 codes).
Proof.
  intros Hd.
  set (codes := map (fun k => jan_code + Z.of_nat k * diff)
                    (seq 0 (Z.to_nat (range_len jan_code dec_code diff)))).
  exists (combine month_names codes), codes. repeat split.
  - apply py_range_Ok; assumption.
  - apply create_month_codes_dict_combine; assumption.
  - rewrite length_combine.
    change (List.length month_names) with 12%nat. lia.
  - rewrite keys_combine. intros name Hin. eapply firstn_In; eassumption.
  - change 12%nat with (List.length month_names) at 1.
    apply combine_firstn_l.
Qed.

Lemma C10_at_most_twelve_witness :
  exists month_codes codes,
    py_range 1 40 1 = Ok codes /\
    create_month_codes_dict 1 40 1 = Ok month_codes /\
    (List.length month_codes <= 12)%nat /\
    incl (dict_keys month_codes) month_names /\
    month_codes = combine month_names (firstn 12 codes).
Proof.
  apply (C10_at_most_twelve 1 40 1); discriminate.
Defined.

(** ** The raster point sampler *)

Lemma py_int_floor (q : Q) : (0 <= q)%Q -> py_int q = Qfloor q.
Proof.
  destruct q as [n d]. unfold Qle, py_int, Qfloor. simpl. intros Hn.
  apply Z.quot_div_nonneg; lia.
Qed.

Lemma int_of_quotient_Ok (a b : Q) (z : Z) :
  int_of_quotient a b = Ok z -> Qeq_bool b 0 = false /\ z = py_int (a / b).
Proof.
  unfold int_of_quotient. destruct (Qeq_bool b 0); [discriminate |].
  intros H. injection H as <-. split; reflexivity.
Qed.

Lemma axis_index_inside (n : nat) (i : Z) :
  0 <= i < Z.of_nat n -> axis_index n i = Some (Z.to_nat i).
Proof.
  intros [Hlo Hhi]. unfold axis_index.
  destruct (Z.leb_spec 0 i); [| lia].
  destruct (Z.ltb_spec i (Z.of_nat n)); [reflexivity | lia].
Qed.

(** What a returning iteration of the loop has done. *)
Lemma get_temp_Ok (open_file : Dataset) (coordinates : list (Q * Q))
  (bands : list Z) (i : nat) (t : Q) :
  get_temp open_file coordinates bands i = Ok t ->
  exists xy b band packed_temp,
    nth_error coordinates i = Some xy /\
    nth_error bands i = Some b /\
    GetRasterBand open_file b = Some band /\
    ndarray_getitem (ReadAsArray band) (int_row open_file xy)
                    (int_col open_file xy) = Ok packed_temp /\
    t = decode band packed_temp.
Proof.
  unfold get_temp.
  destruct (nth_error bands i) as [b |] eqn:Eb; [| discriminate].
  destruct (nth_error coordinates i) as [xy |] eqn:Exy; [| discriminate].
  cbn [of_option bind].
  destruct (int_of_quotient _ _) as [x |] eqn:Ex; [| discriminate].
  cbn [bind].
  destruct (int_of_quotient (snd xy - _) _) as [y |] eqn:Ey; [| discriminate].
  cbn [bind].
  destruct (GetRasterBand open_file b) as [band |] eqn:Eband; [| discriminate].
  cbn [of_option bind].
  destruct (ndarray_getitem _ y x) as [packed_temp |] eqn:Ep; [| discriminate].
  cbn [bind]. intros H. injection H as <-.
  apply int_of_quotient_Ok in Ex, Ey.
  destruct Ex as [_ ->], Ey as [_ ->].
  exists xy, b, band, packed_temp.
  split; [reflexivity |]. split; [reflexivity |]. split; [exact Eband |].
  split; [exact Ep | reflexivity].
Qed.

(** An entry inside the raster is sampled without an exception. *)
Lemma get_temp_in_raster (open_file : Dataset) (coordinates : list (Q * Q))
  (bands : list Z) (i : nat) (xy : Q * Q) (b : Z) :
  nth_error coordinates i = Some xy ->
  nth_error bands i = Some b ->
  in_raster open_file xy b = true ->
  exists band,
    GetRasterBand open_file b = Some band /\
    get_temp open_file coordinates bands i
    = Ok (decode band (item (ReadAsArray band)
                            (Z.to_nat (int_row open_file xy))
                            (Z.to_nat (int_col open_file xy)))).
Proof.
  intros Hxy Hb Hin. unfold in_raster in Hin.
  destruct (GetRasterBand open_file b) as [band |] eqn:Eband; [| discriminate].
  repeat (apply andb_prop in Hin; destruct Hin as [Hin ?]).
  apply negb_true_iff in Hin.
  match goal with H : negb _ = true |- _ => apply negb_true_iff in H end.
  repeat match goal with
         | H : (_ <=? _) = true |- _ => apply Z.leb_le in H
         | H : (_ <? _) = true |- _ => apply Z.ltb_lt in H
         end.
  exists band. split; [reflexivity |].
  unfold get_temp. rewrite Hb, Hxy. cbn [of_option bind].
  unfold int_of_quotient. rewrite Hin. cbn [bind].
  match goal with H : Qeq_bool _ 0 = false |- _ => rewrite H end.
  cbn [bind]. rewrite Eband. cbn [of_option bind].
  unfold ndarray_getitem.
  change (py_int _) with (int_col open_file xy) at 2.
  change (py_int _) with (int_row open_file xy) at 1.
  rewrite !axis_index_inside by (split; assumption).
  reflexivity.
Qed.

Lemma append_loop_total {A B : Type} (f : A -> result B) (l : list A) :
  (forall a, In a l -> exists b, f a = Ok b) ->
  exists out, append_loop f l = Ok out.
Proof.
  induction l as [| a l IH]; intros Hall.
  - exists []. reflexivity.
  - destruct (Hall a (or_introl eq_refl)) as [b Hb].
    destruct IH as [out Hout]; [intros a' Ha'; apply Hall; now right |].
    exists (b :: out). rewrite append_loop_cons, Hb. simpl. now rewrite Hout.
Qed.

Lemma get_temps_list_nth (open_file : Dataset) (coordinates : list (Q * Q))
  (bands : list Z) (out : list Q) :
  get_temps_list open_file coordinates bands = Ok out ->
  List.length out = List.length bands /\
  forall i, (i < List.length bands)%nat ->
    exists t, nth_error out i = Some t /\
              get_temp open_file coordinates bands i = Ok t.
Proof.
  unfold get_temps_list. intros H. apply append_loop_Ok in H. split.
  - apply Forall2_length in H. now rewrite length_seq in H.
  - intros i Hi.
    destruct (Forall2_nth_error _ _ _ H i i) as [t [Ht Hget]].
    + rewrite nth_error_seq. destruct (Nat.ltb_spec i (List.length bands));
        [reflexivity | lia].
    + exists t. split; assumption.
Qed.

Lemma nth_error_combine_In {A B : Type} (l : list A) (l' : list B) (i : nat)
  (a : A) (b : B) :
  nth_error l i = Some a -> nth_error l' i = Some b -> In (a, b) (combine l l').
Proof.
  revert l' i. induction l as [| a0 l IH]; intros [| b0 l'] [| i] Ha Hb;
    try discriminate; simpl in *.
  - injection Ha as ->. injection Hb as ->. now left.
  - right. eapply IH; eassumption.
Qed.




(** Left of the origin the two conversions part: half a pixel to the left
    the code reads column [int(-0.5) = 0], while the floor is -1. *)
Example left_of_origin_int_and_floor :
  get_temps_list raster_1x2 [left_of_origin] [1] = Ok [10 # 1]%Q /\
  int_col raster_1x2 left_of_origin = 0 /\
  floor_col raster_1x2 left_of_origin = -1 /\
  ~ samples_at_floor raster_1x2 [left_of_origin] [1].
Proof.
  repeat split; try reflexivity.
  intros H.
  destruct (H [10 # 1]%Q eq_refl 0%nat left_of_origin 1 _
              eq_refl eq_refl eq_refl) as [p [v [Hp [Hv Heq]]]].
  vm_compute in Hp. injection Hp as <-.
  injection Hv as <-.
  vm_compute in Heq. discriminate.
Qed.

(** C6. For [N] coordinate pairs and [N] band indices, all inside the
    raster, [get_temps_list] returns [N] values, and the [i]-th is the
    decoded band array element for the [i]-th pair in the band with the
    [i]-th index. The result is a function of the raster and of the two
    sequences. *)
Theorem C6_one_value_per_entry (open_file : Dataset)
  (coordinates : list (Q * Q)) (bands : list Z) :
  List.length coordinates = List.length bands ->
  forallb (fun e => in_raster open_file (fst e) (snd e))
          (combine coordinates bands) = true ->
  exists out,
    get_temps_list open_file coordinates bands = Ok out /\
    List.length out = List.length coordinates /\
    forall i xy b,
      nth_error coordinates i = Some xy ->
      nth_error bands i = Some b ->
      exists band,
        GetRasterBand open_file b = Some band /\
        nth_error out i
        = Some (decode band (item (ReadAsArray band)
                                  (Z.to_nat (int_row open_file xy))
                                  (Z.to_nat (int_col open_file xy)))).
Proof.
  intros Hlen Hall. rewrite forallb_forall in Hall.
  assert (Hin : forall i xy b, nth_error coordinates i = Some xy ->
                  nth_error bands i = Some b ->
                  in_raster open_file xy b = true).
  { intros i xy b Hxy Hb.
    apply (Hall (xy, b)). eapply nth_error_combine_In; eassumption. }
  destruct (append_loop_total (get_temp open_file coordinates bands)
              (seq 0 (List.length bands))) as [out Hout].
  { intros i Hi. apply in_seq in Hi. simpl in Hi.
    destruct (nth_error bands i) as [b |] eqn:Eb;
      [| apply nth_error_None in Eb; lia].
    destruct (nth_error coordinates i) as [xy |] eqn:Exy;
      [| apply nth_error_None in Exy; lia].
    destruct (get_temp_in_raster _ _ _ _ _ _ Exy Eb (Hin _ _ _ Exy Eb))
      as [band [_ Hget]].
    eexists. exact Hget. }
  exists out. split; [exact Hout |].
  destruct (get_temps_list_nth _ _ _ _ Hout) as [Hl Hnth].
  split; [congruence |].
  intros i xy b Hxy Hb.
  destruct (get_temp_in_raster _ _ _ _ _ _ Hxy Hb (Hin _ _ _ Hxy Hb))
    as [band [Hband Hget]].
  exists band. split; [exact Hband |].
  destruct (Hnth i) as [t [Ht Hget']].
  { apply nth_error_Some. congruence. }
  congruence.
Qed.

Lemma C6_one_value_per_entry_witness :
  exists out,
    get_temps_list year_1900 two_points july_august = Ok out /\
    List.length out = List.length two_points /\
    forall i xy b,
      nth_error two_points i = Some xy ->
      nth_error july_august i = Some b ->
      exists band,
        GetRasterBand year_1900 b = Some band /\
        nth_error out i
        = Some (decode band (item (ReadAsArray band)
                                  (Z.to_nat (int_row year_1900 xy))
                                  (Z.to_nat (int_col year_1900 xy)))).
Proof.
  apply (C6_one_value_per_entry year_1900 two_points july_august);
    reflexivity.
Defined.

(** ** [unique]: first occurrences *)

Section Unique.

Context {A : Type} (eqb : A -> A -> bool).
Hypothesis eqb_refl : forall a, eqb a a = true.
Hypothesis eqb_sym : forall a b, eqb a b = eqb b a.
Hypothesis eqb_trans :
  forall a b c, eqb a b = true -> eqb b c = true -> eqb a c = true.

Lemma occurrences_app (a : A) (s t : list A) :
  occurrences eqb a (s ++ t) = (occurrences eqb a s + occurrences eqb a t)%nat.
Proof. unfold occurrences. now rewrite filter_app, length_app. Qed.

Lemma existsb_occurrences (a : A) (s : list A) :
  existsb (eqb a) s = true <-> (1 <= occurrences eqb a s)%nat.
Proof.
  unfold occurrences. induction s as [| u s IH]; simpl.
  - split; [discriminate | lia].
  - destruct (eqb a u); simpl; [split; [lia | reflexivity] | exact IH].
Qed.

Lemma occurrences_eqb (a b : A) (s : list A) :
  eqb a b = true -> occurrences eqb a s = occurrences eqb b s.
Proof.
  intros Hab. unfold occurrences. f_equal. apply filter_ext. intros u.
  destruct (eqb b u) eqn:Eb.
  - eapply eqb_trans; eassumption.
  - destruct (eqb a u) eqn:Ea; [| reflexivity].
    rewrite <- Eb. symmetry. apply (eqb_trans b a u); [| assumption].
    now rewrite eqb_sym.
Qed.

Lemma unique_from (l seen : list A) :
  (forall b, occurrences eqb b seen <= 1)%nat ->
  let out := fold_left (unique_step eqb) l seen in
  (forall b, occurrences eqb b out <= 1)%nat /\
  (forall b, (1 <= occurrences eqb b seen)%nat -> occurrences eqb b out = 1%nat) /\
  (forall a, In a l -> occurrences eqb a out = 1%nat) /\
  (forall u, In u out -> In u seen \/ In u l).
Proof.
  revert seen. induction l as [| a l IH]; intros seen Hseen; simpl.
  - repeat split.
    + exact Hseen.
    + intros b Hb. specialize (Hseen b). lia.
    + intros a [].
    + intros u Hu. now left.
  - assert (Hstep : forall b, (occurrences eqb b (unique_step eqb seen a) <= 1)%nat).
    { intros b. unfold unique_step.
      destruct (existsb (eqb a) seen) eqn:Ea; [apply Hseen |].
      rewrite occurrences_app. unfold occurrences at 2. simpl.
      destruct (eqb b a) eqn:Eba; simpl; [| specialize (Hseen b); lia].
      assert (occurrences eqb a seen = 0%nat).
      { destruct (occurrences eqb a seen) eqn:E0; [reflexivity |].
        assert (existsb (eqb a) seen = true)
          by (apply existsb_occurrences; lia).
        congruence. }
      rewrite (occurrences_eqb b a seen Eba). lia. }
    assert (Ha : (1 <= occurrences eqb a (unique_step eqb seen a))%nat).
    { unfold unique_step. destruct (existsb (eqb a) seen) eqn:Ea.
      - now apply existsb_occurrences.
      - rewrite occurrences_app. unfold occurrences at 2. simpl.
        rewrite eqb_refl. simpl. lia. }
    assert (Hmono : forall b, (1 <= occurrences eqb b seen)%nat ->
                              (1 <= occurrences eqb b (unique_step eqb seen a))%nat).
    { intros b Hb. unfold unique_step. destruct (existsb (eqb a) seen);
        [assumption | rewrite occurrences_app; lia]. }
    destruct (IH (unique_step eqb seen a) Hstep) as [H1 [H2 [H3 H4]]].
    repeat split.
    + exact H1.
    + intros b Hb. apply H2, Hmono, Hb.
    + intros a' [<- | Hin]; [apply H2, Ha | apply H3, Hin].
    + intros u Hu. destruct (H4 u Hu) as [Hs | Hl]; [| right; now right].
      unfold unique_step in Hs. destruct (existsb (eqb a) seen); [now left |].
      apply in_app_or in Hs. destruct Hs as [Hs | [<- | []]];
        [now left | right; now left].
Qed.

Lemma unique_once (l : list A) (a : A) :
  In a l -> occurrences eqb a (unique eqb l) = 1%nat.
Proof.
  intros Ha. destruct (unique_from l []) as [_ [_ [H _]]].
  - intros b. unfold occurrences. simpl. lia.
  - apply H, Ha.
Qed.

Lemma unique_at_most_once (l : list A) (b : A) :
  (occurrences eqb b (unique eqb l) <= 1)%nat.
Proof.
  destruct (unique_from l []) as [H _].
  - intros c. unfold occurrences. simpl. lia.
  - apply H.
Qed.

Lemma unique_incl (l : list A) (u : A) : In u (unique eqb l) -> In u l.
Proof.
  intros Hu. destruct (unique_from l []) as [_ [_ [_ H]]].
  - intros b. unfold occurrences. simpl. lia.
  - destruct (H u Hu) as [[] | Hl]. exact Hl.
Qed.

Lemma occurrences_In (a : A) (s : list A) :
  (1 <= occurrences eqb a s)%nat -> exists u, In u s /\ eqb a u = true.
Proof.
  intros H. apply existsb_occurrences in H. apply existsb_exists in H.
  exact H.
Qed.

End Unique.

(** ** [groupby] *)

Lemma string_eqb_trans (a b c : string) :
  String.eqb a b = true -> String.eqb b c = true -> String.eqb a c = true.
Proof.
  rewrite !String.eqb_eq. congruence.
Qed.

Lemma unique_strings_In (l : list string) (x : string) :
  In x (unique String.eqb l) <-> In x l.
Proof.
  split.
  - apply (unique_incl String.eqb String.eqb_refl String.eqb_sym
             string_eqb_trans).
  - intros Hx.
    pose proof (unique_once String.eqb String.eqb_refl String.eqb_sym
                  string_eqb_trans l x Hx) as H1.
    destruct (occurrences_In String.eqb x (unique String.eqb l)) as [u [Hu Hxu]];
      [lia |].
    apply String.eqb_eq in Hxu. now subst u.
Qed.

Lemma insert_sorted_In (s x : string) (l : list string) :
  In x (insert_sorted s l) <-> x = s \/ In x l.
Proof.
  induction l as [| t l IH]; simpl.
  - intuition congruence.
  - destruct (String.leb s t); simpl; [intuition congruence |].
    rewrite IH. intuition congruence.
Qed.

Lemma sort_strings_In (l : list string) (x : string) :
  In x (sort_strings l) <-> In x l.
Proof.
  induction l as [| s l IH]; simpl; [reflexivity |].
  rewrite insert_sorted_In, IH. intuition congruence.
Qed.

Lemma groupby_In {Row : Type} (dataframe : list Row) (col : Row -> string)
  (label : string) (data : list Row) :
  In (label, data) (groupby dataframe col) <->
  In label (map col dataframe) /\
  data = filter (fun r => String.eqb (col r) label) dataframe.
Proof.
  unfold groupby. rewrite in_map_iff. split.
  - intros [l [Heq Hl]]. injection Heq as -> <-.
    rewrite sort_strings_In, unique_strings_In in Hl.
    split; [exact Hl | reflexivity].
  - intros [Hl ->]. exists label. split; [reflexivity |].
    rewrite sort_strings_In, unique_strings_In. exact Hl.
Qed.

(** No group is empty. *)
Lemma groupby_nonempty {Row : Type} (dataframe : list Row)
  (col : Row -> string) (g : string * list Row) :
  In g (groupby dataframe col) -> snd g <> [].
Proof.
  destruct g as [label data]. intros Hg. apply groupby_In in Hg.
  destruct Hg as [Hl ->]. simpl.
  apply in_map_iff in Hl. destruct Hl as [r [Hr Hin]].
  intros Hnil.
  assert (In r (filter (fun r0 => String.eqb (col r0) label) dataframe)) as H.
  { apply filter_In. split; [exact Hin |]. rewrite Hr. apply String.eqb_refl. }
  rewrite Hnil in H. exact H.
Qed.

(** ** The species filter *)

Lemma isin_In (label : string) (labels : list string) :
  isin label labels = true <-> In label labels.
Proof.
  unfold isin. rewrite existsb_exists. split.
  - intros [x [Hx Heq]]. apply String.eqb_eq in Heq. now subst x.
  - intros H. exists label. split; [exact H | apply String.eqb_refl].
Qed.

Lemma collect_labels {Row : Type} (P : string * list Row -> bool)
  (groups : list (string * list Row)) (acc : list string) :
  fold_left (fun insufficient g =>
               if P g then (insufficient ++ [fst g])%list else insufficient)
            groups acc
  = (acc ++ map fst (filter P groups))%list.
Proof.
  revert acc. induction groups as [| g groups IH]; intros acc; simpl.
  - now rewrite app_nil_r.
  - rewrite IH. destruct (P g); simpl; [now rewrite <- app_assoc | reflexivity].
Qed.

(** A row is dropped exactly when its group counts fewer than thirty
    distinct row indices. *)
Lemma insufficient_iff {Row : Type} (row_index_col : Row -> Z)
  (dataframe : list Row) (species_col : Row -> string) (r : Row) :
  In r dataframe ->
  isin (species_col r)
       (map fst (filter (fun g => (n_unique_row_index row_index_col (snd g)
                                   <? 30)%nat)
                        (groupby dataframe species_col)))
  = (individuals_of row_index_col dataframe species_col (species_col r)
     <? 30)%nat.
Proof.
  intros Hr.
  set (P := fun g : string * list Row =>
              (n_unique_row_index row_index_col (snd g) <? 30)%nat).
  set (data := filter (fun r0 => String.eqb (species_col r0) (species_col r))
                      dataframe).
  assert (Hg : In (species_col r, data) (groupby dataframe species_col)).
  { apply groupby_In. split; [now apply in_map | reflexivity]. }
  unfold individuals_of. fold data.
  destruct (n_unique_row_index row_index_col data <? 30)%nat eqn:E.
  - apply isin_In. apply in_map_iff. exists (species_col r, data).
    split; [reflexivity |]. apply filter_In. split; [exact Hg | exact E].
  - apply not_true_is_false. intros Hin. apply isin_In in Hin.
    apply in_map_iff in Hin. destruct Hin as [[label data'] [Hl Hin]].
    simpl in Hl. subst label. apply filter_In in Hin.
    destruct Hin as [Hin HP]. apply groupby_In in Hin.
    destruct Hin as [_ ->]. unfold P in HP. simpl in HP. fold data in HP.
    congruence.
Qed.

Lemma remove_species_filter {Row : Type} (row_index_col : Row -> Z)
  (dataframe : list Row) (species_col : Row -> string) :
  remove_species row_index_col dataframe species_col
  = filter (fun r => (30 <=? individuals_of row_index_col dataframe
                               species_col (species_col r))%nat)
           dataframe.
Proof.
  unfold remove_species. cbv zeta. rewrite collect_labels. simpl app.
  apply filter_ext_in. intros r Hr.
  rewrite insufficient_iff by exact Hr.
  destruct (Nat.ltb_spec
              (individuals_of row_index_col dataframe species_col (species_col r))
              30);
    destruct (Nat.leb_spec 30
                (individuals_of row_index_col dataframe species_col
                   (species_col r)));
    try reflexivity; lia.
Qed.

Lemma filter_filter_and {A : Type} (f g : A -> bool) (l : list A) :
  filter f (filter g l) = filter (fun a => f a && g a) l.
Proof.
  induction l as [| a l IH]; simpl; [reflexivity |].
  destruct (g a); simpl.
  - rewrite andb_true_r. destruct (f a); simpl; now rewrite IH.
  - rewrite andb_false_r. exact IH.
Qed.

Lemma filter_none {A : Type} (l : list A) : filter (fun _ => false) l = [].
Proof.
  induction l as [| a l IH]; simpl; auto.
Qed.

(** *** The count of the code is the count of distinct values *)

Lemma unique_members {A : Type} (eqb : A -> A -> bool)
  (eqb_eq : forall a b, eqb a b = true <-> a = b) (l : list A) (x : A) :
  In x (unique eqb l) <-> In x l.
Proof.
  assert (Hrefl : forall a, eqb a a = true) by (intros a; now apply eqb_eq).
  assert (Hsym : forall a b, eqb a b = eqb b a).
  { intros a b. apply eq_true_iff_eq. rewrite !eqb_eq. split; congruence. }
  assert (Htrans : forall a b c, eqb a b = true -> eqb b c = true ->
                                 eqb a c = true).
  { intros a b c. rewrite !eqb_eq. congruence. }
  split.
  - apply (unique_incl eqb Hrefl Hsym Htrans).
  - intros Hx.
    pose proof (unique_once eqb Hrefl Hsym Htrans l x Hx) as H1.
    destruct (occurrences_In eqb x (unique eqb l)) as [u [Hu Hxu]]; [lia |].
    apply eqb_eq in Hxu. now subst u.
Qed.

Lemma unique_no_repeat {A : Type} (eqb : A -> A -> bool)
  (eqb_eq : forall a b, eqb a b = true <-> a = b) (l : list A) :
  NoDup (unique eqb l).
Proof.
  assert (Hrefl : forall a, eqb a a = true) by (intros a; now apply eqb_eq).
  assert (Hsym : forall a b, eqb a b = eqb b a).
  { intros a b. apply eq_true_iff_eq. rewrite !eqb_eq. split; congruence. }
  assert (Htrans : forall a b c, eqb a b = true -> eqb b c = true ->
                                 eqb a c = true).
  { intros a b c. rewrite !eqb_eq. congruence. }
  assert (H : forall x, (occurrences eqb x (unique eqb l) <= 1)%nat)
    by (intros x; now apply unique_at_most_once).
  induction (unique eqb l) as [| a u IH]; constructor.
  - intros Hin. specialize (H a). unfold occurrences in H. simpl in H.
    rewrite Hrefl in H. simpl in H.
    assert (Hex : existsb (eqb a) u = true).
    { apply existsb_exists. exists a. split; [exact Hin | apply Hrefl]. }
    apply existsb_occurrences in Hex. unfold occurrences in Hex. lia.
  - apply IH. intros x. specialize (H x). unfold occurrences in *. simpl in H.
    destruct (eqb x a); simpl in H; lia.
Qed.

(** Two lists without repetition that hold the same values are as long. *)
Lemma NoDup_same_members_length {A : Type} (l l' : list A) :
  NoDup l -> NoDup l' -> (forall x, In x l <-> In x l') ->
  List.length l = List.length l'.
Proof.
  intros Hl Hl' Hsame. apply Permutation_length.
  now apply NoDup_Permutation.
Qed.

(** [len(species_data["row_index"].unique())] is the number of distinct
    row indices of the group. *)
Lemma n_unique_row_index_distinct {Row : Type} (row_index_col : Row -> Z)
  (species_data : list Row) :
  n_unique_row_index row_index_col species_data
  = distinct_row_index_count row_index_col species_data.
Proof.
  unfold n_unique_row_index, distinct_row_index_count.
  apply NoDup_same_members_length.
  - apply unique_no_repeat, Z.eqb_eq.
  - apply NoDup_nodup.
  - intros x. rewrite (unique_members Z.eqb Z.eqb_eq), nodup_In. reflexivity.
Qed.

(** The count is characterised by any list of the distinct values. *)
Lemma distinct_row_index_count_spec {Row : Type} (row_index_col : Row -> Z)
  (group : list Row) (values : list Z) :
  NoDup values ->
  (forall z, In z values <-> exists r, In r group /\ row_index_col r = z) ->
  distinct_row_index_count row_index_col group = List.length values.
Proof.
  intros Hnd Hvalues. unfold distinct_row_index_count.
  apply NoDup_same_members_length; [apply NoDup_nodup | exact Hnd |].
  intros z. rewrite nodup_In, in_map_iff, Hvalues.
  split; intros [r [H1 H2]]; exists r; auto.
Qed.

Lemma remove_species_distinct {Row : Type} (row_index_col : Row -> Z)
  (dataframe : list Row) (species_col : Row -> string) :
  remove_species row_index_col dataframe species_col
  = filter (fun r =>
              (30 <=? distinct_row_index_count row_index_col
                        (filter (fun r0 => String.eqb (species_col r0)
                                                      (species_col r))
                                dataframe))%nat)
           dataframe.
Proof.
  rewrite remove_species_filter. apply filter_ext. intros r.
  unfold individuals_of. now rewrite n_unique_row_index_distinct.
Qed.

(** C2. [remove_species] returns, in their order, exactly the rows of the
    groups that have at least thirty distinct row indices: every row of a
    group with fewer (29, say) is removed, every row of a group with thirty
    or more is kept, so that a group of exactly thirty is retained whole.
    The count is the number of different values of [row_index] in the
    group, however many rows carry each. *)
Theorem C2_species_filter {Row : Type} (row_index_col : Row -> Z)
  (dataframe : list Row) (species_col : Row -> string) :
  let group_of (label : string) (frame : list Row) :=
    filter (fun r => String.eqb (species_col r) label) frame in
  let count (label : string) :=
    distinct_row_index_count row_index_col (group_of label dataframe) in
  let kept := remove_species row_index_col dataframe species_col in
  kept = filter (fun r => (30 <=? count (species_col r))%nat) dataframe /\
  (forall r, In r kept <->
             In r dataframe /\ (30 <= count (species_col r))%nat) /\
  (forall label, (count label < 30)%nat -> group_of label kept = []) /\
  (forall label, (30 <= count label)%nat ->
                 group_of label kept = group_of label dataframe) /\
  (forall label, count label = 29%nat -> group_of label kept = []) /\
  (forall label, count label = 30%nat ->
                 group_of label kept = group_of label dataframe) /\
  (forall label values,
      NoDup values ->
      (forall z, In z values <->
                 exists r, In r (group_of label dataframe) /\
                           row_index_col r = z) ->
      count label = List.length values).
Proof.
  intros group_of count kept.
  assert (Hkept : kept = filter (fun r => (30 <=? count (species_col r))%nat)
                                dataframe)
    by apply remove_species_distinct.
  assert (Hlt : forall label, (count label < 30)%nat ->
                              group_of label kept = []).
  { intros label Hc. unfold group_of at 1. rewrite Hkept, filter_filter_and.
    rewrite <- (filter_ext_in (fun _ => false)); [apply filter_none |].
    intros r _. destruct (String.eqb_spec (species_col r) label) as [-> |];
      [| reflexivity].
    cbn [andb]. symmetry. apply Nat.leb_gt. exact Hc. }
  assert (Hge : forall label, (30 <= count label)%nat ->
                              group_of label kept = group_of label dataframe).
  { intros label Hc. unfold group_of. rewrite Hkept, filter_filter_and.
    apply filter_ext_in. intros r _.
    destruct (String.eqb_spec (species_col r) label) as [-> |];
      [| reflexivity].
    cbn [andb]. apply Nat.leb_le. exact Hc. }
  split; [exact Hkept |]. split.
  - intros r. rewrite Hkept, filter_In, Nat.leb_le. reflexivity.
  - repeat split.
    + exact Hlt.
    + exact Hge.
    + intros label Hc. apply Hlt. lia.
    + intros label Hc. apply Hge. lia.
    + intros label values Hnd Hvalues.
      now apply distinct_row_index_count_spec.
Qed.

(** Thirty rows with twenty-nine row indices are not thirty individuals:
    the group is removed. *)
Example remove_species_repeated_row_index :
  List.length (one_site 29 "Mus musculus" ++ one_site 1 "Mus musculus")
  = 30%nat
  /\ remove_species row_index_of
       (one_site 29 "Mus musculus" ++ one_site 1 "Mus musculus")%list
       species_of = [].
Proof. split; vm_compute; reflexivity. Qed.

(** ** The missing-data filter *)

Lemma Qlt_bool_iff (a b : Q) : Qlt_bool a b = true <-> (a < b)%Q.
Proof.
  unfold Qlt_bool. rewrite negb_true_iff, <- not_true_iff_false, Qle_bool_iff.
  split; [apply Qnot_le_lt | apply Qlt_not_le].
Qed.

(** C4. Every row of [stats_data], the frame handed to the regressions, and
    so every row of every group the loop fits, has a sampled temperature
    strictly below 3276: the rows at or above it are filtered out before
    [remove_species] and the regressions. *)
Theorem C4_no_sentinel_in_regression (temp_file : Dataset)
  (individual_data : list Specimen) (stats_data : list TempRow) :
  make_stats_data temp_file individual_data = Ok stats_data ->
  (forall r, In r stats_data -> (july_temps r < 3276)%Q) /\
  (forall species species_data,
      In (species, species_data) (groupby stats_data species_of) ->
      Forall (fun point => (fst point < 3276)%Q) (temp_points species_data)).
Proof.
  unfold make_stats_data.
  destruct (make_temp_data temp_file individual_data) as [temp_data | e];
    [| discriminate].
  cbn [bind]. intros H. injection H as <-.
  assert (Hrow : forall r,
             In r (remove_species row_index_of
                     (filter (fun r0 => Qlt_bool (july_temps r0) 3276) temp_data)
                     species_of) ->
             (july_temps r < 3276)%Q).
  { intros r Hr. rewrite remove_species_filter in Hr.
    apply filter_In in Hr. destruct Hr as [Hr _].
    apply filter_In in Hr. destruct Hr as [_ Hr].
    now apply Qlt_bool_iff. }
  split; [exact Hrow |].
  intros species species_data Hg. apply groupby_In in Hg.
  destruct Hg as [_ ->]. unfold temp_points.
  apply Forall_forall. intros point Hp. apply in_map_iff in Hp.
  destruct Hp as [r [<- Hr]]. simpl.
  apply filter_In in Hr. destruct Hr as [Hr _]. apply Hrow, Hr.
Qed.

Lemma C4_no_sentinel_in_regression_witness :
  (forall r, In r stats_data_1900 -> (july_temps r < 3276)%Q) /\
  (forall species species_data,
      In (species, species_data) (groupby stats_data_1900 species_of) ->
      Forall (fun point => (fst point < 3276)%Q) (temp_points species_data)).
Proof.
  apply (C4_no_sentinel_in_regression year_1900 specimens_1900 stats_data_1900).
  vm_compute. reflexivity.
Defined.

Example stats_data_1900_length :
  List.length temp_data_1900 = 31%nat /\ List.length stats_data_1900 = 30%nat.
Proof. split; reflexivity. Qed.

(** ** Deduplicated lookups and the merge *)

Lemma key_eqb_refl (k : LookupKey) : key_eqb k k = true.
Proof.
  unfold key_eqb. rewrite !Qeq_bool_refl, Z.eqb_refl. reflexivity.
Qed.

Lemma key_eqb_true (k1 k2 : LookupKey) :
  key_eqb k1 k2 = true <->
  (key_longitude k1 == key_longitude k2)%Q /\
  (key_decimallatitude k1 == key_decimallatitude k2)%Q /\
  key_stackID_july k1 = key_stackID_july k2.
Proof.
  unfold key_eqb. rewrite !andb_true_iff, !Qeq_bool_iff, Z.eqb_eq. tauto.
Qed.

Lemma key_eqb_sym (k1 k2 : LookupKey) : key_eqb k1 k2 = key_eqb k2 k1.
Proof.
  apply eq_true_iff_eq. rewrite !key_eqb_true.
  split; intros [H1 [H2 H3]]; repeat split;
    solve [symmetry; assumption].
Qed.

Lemma key_eqb_trans (k1 k2 k3 : LookupKey) :
  key_eqb k1 k2 = true -> key_eqb k2 k3 = true -> key_eqb k1 k3 = true.
Proof.
  rewrite !key_eqb_true. intros [H1 [H2 H3]] [H4 [H5 H6]]. repeat split.
  - now rewrite H1.
  - now rewrite H2.
  - congruence.
Qed.

Lemma add_stackID_july_Ok (individual_data : list Specimen) :
  add_stackID_july individual_data
  = Ok (map (fun s => mk_Individual s (get_stackID_int64 (year s) 22793))
            individual_data).
Proof. reflexivity. Qed.

Lemma set_july_temps_Ok (temp_lookup : list LookupKey) (temps : list Q)
  (sampled : list LookupTemp) :
  set_july_temps temp_lookup temps = Ok sampled ->
  List.length temps = List.length temp_lookup /\
  map temp_key sampled = temp_lookup /\
  forall r, In r sampled ->
    exists i, nth_error temp_lookup i = Some (temp_key r) /\
              nth_error temps i = Some (lookup_july_temps r).
Proof.
  unfold set_july_temps.
  destruct (Nat.eqb_spec (List.length temps) (List.length temp_lookup))
    as [Hlen |]; [| discriminate].
  intros H. injection H as <-. split; [exact Hlen |]. split.
  - rewrite map_map. simpl. clear -Hlen. revert temps Hlen.
    induction temp_lookup as [| k l IH]; intros [| t temps] Hlen;
      try discriminate; simpl; [reflexivity |].
    f_equal. apply IH. simpl in Hlen. lia.
  - intros r Hr. apply in_map_iff in Hr. destruct Hr as [[k t] [<- Hin]].
    simpl. clear -Hin. revert temps Hin.
    induction temp_lookup as [| k0 l IH]; intros [| t0 temps] Hin;
      simpl in Hin; try contradiction.
    destruct Hin as [Heq | Hin].
    + injection Heq as -> ->. exists 0%nat. split; reflexivity.
    + destruct (IH _ Hin) as [i [H1 H2]]. exists (S i). split; assumption.
Qed.

Lemma occurrences_map_key (k : LookupKey) (sampled : list LookupTemp) :
  List.length (filter (fun r => key_eqb k (temp_key r)) sampled)
  = occurrences key_eqb k (map temp_key sampled).
Proof.
  unfold occurrences. induction sampled as [| r l IH]; simpl; [reflexivity |].
  destruct (key_eqb k (temp_key r)); simpl; now rewrite IH.
Qed.

Lemma merge_In (left : list Individual) (right : list LookupTemp)
  (t : TempRow) :
  In t (merge left right) <->
  exists r, In (individual t) left /\ In r right /\
            key_eqb (lookup_key (individual t)) (temp_key r) = true /\
            july_temps t = lookup_july_temps r.
Proof.
  unfold merge. rewrite in_flat_map. split.
  - intros [l [Hl Ht]]. apply in_map_iff in Ht. destruct Ht as [r [<- Hr]].
    apply filter_In in Hr. destruct Hr as [Hr Hk]. exists r. simpl. auto.
  - intros [r [Hl [Hr [Hk Ht]]]]. exists (individual t). split; [exact Hl |].
    apply in_map_iff. exists r. split.
    + destruct t as [l q]. simpl in *. now subst q.
    + apply filter_In. split; assumption.
Qed.

(** When every left row has exactly one partner, the merge keeps the left
    frame row by row. *)
Lemma merge_one_to_one (left : list Individual) (right : list LookupTemp) :
  (forall l, In l left ->
     List.length (filter (fun r => key_eqb (lookup_key l) (temp_key r)) right)
     = 1%nat) ->
  map individual (merge left right) = left.
Proof.
  unfold merge. induction left as [| l left IH]; intros Hone; simpl.
  - reflexivity.
  - rewrite map_app, IH by (intros l' Hl'; apply Hone; now right).
    specialize (Hone l (or_introl eq_refl)).
    destruct (filter _ right) as [| r [| r' rest]]; try discriminate.
    reflexivity.
Qed.

Lemma singleton_filter {A : Type} (f : A -> bool) (l : list A) (a b : A) :
  List.length (filter f l) = 1%nat ->
  In a l -> f a = true -> In b l -> f b = true -> a = b.
Proof.
  intros Hlen Ha Hfa Hb Hfb.
  assert (Ha' : In a (filter f l)) by (apply filter_In; auto).
  assert (Hb' : In b (filter f l)) by (apply filter_In; auto).
  destruct (filter f l) as [| c [| c' rest]]; try discriminate.
  destruct Ha' as [<- | []], Hb' as [<- | []]. reflexivity.
Qed.

(** C9. The script samples the deduplicated (longitude, latitude, stack
    index) triples: in the frame handed to the sampler no triple occurs
    twice and the triple of every specimen occurs once; the sampler returns
    one value per triple; the merge keeps every specimen once, with the
    value sampled for its triple, so that specimens with the same triple
    carry the same temperature. *)
Theorem C9_one_temperature_per_key (temp_file : Dataset)
  (individual_data : list Specimen) (temp_data : list TempRow) :
  make_temp_data temp_file individual_data = Ok temp_data ->
  exists rows temp_lookup temps,
    add_stackID_july individual_data = Ok rows /\
    temp_lookup = drop_duplicates (map lookup_key rows) /\
    get_temps_list temp_file
      (map (fun k => (key_longitude k, key_decimallatitude k)) temp_lookup)
      (map key_stackID_july temp_lookup) = Ok temps /\
    List.length temps = List.length temp_lookup /\
    (forall k, (occurrences key_eqb k temp_lookup <= 1)%nat) /\
    (forall r, In r rows ->
               occurrences key_eqb (lookup_key r) temp_lookup = 1%nat) /\
    Permutation (map individual temp_data) rows /\
    (forall t, In t temp_data ->
       exists i k,
         nth_error temp_lookup i = Some k /\
         key_eqb (lookup_key (individual t)) k = true /\
         nth_error temps i = Some (july_temps t)) /\
    (forall t1 t2, In t1 temp_data -> In t2 temp_data ->
       key_eqb (lookup_key (individual t1)) (lookup_key (individual t2)) = true ->
       july_temps t1 = july_temps t2).
Proof.
  unfold make_temp_data. rewrite add_stackID_july_Ok. cbn [bind].
  set (rows := map _ individual_data).
  set (temp_lookup := drop_duplicates (map lookup_key rows)).
  unfold sample_temp_lookup.
  destruct (get_temps_list temp_file _ _) as [temps |] eqn:Etemps;
    [| discriminate].
  cbn [bind].
  destruct (set_july_temps temp_lookup temps) as [sampled |] eqn:Eset;
    [| discriminate].
  cbn [bind]. intros H. injection H as <-.
  destruct (set_july_temps_Ok _ _ _ Eset) as [Hlen [Hkeys Hnth]].
  assert (Hmost : forall k, (occurrences key_eqb k temp_lookup <= 1)%nat).
  { intros k. apply unique_at_most_once;
      [apply key_eqb_refl | apply key_eqb_sym | apply key_eqb_trans]. }
  assert (Honce : forall r, In r rows ->
                    occurrences key_eqb (lookup_key r) temp_lookup = 1%nat).
  { intros r Hr. apply unique_once;
      [apply key_eqb_refl | apply key_eqb_sym | apply key_eqb_trans |].
    now apply in_map. }
  assert (Hpartner : forall l, In l rows ->
            List.length (filter (fun r => key_eqb (lookup_key l) (temp_key r))
                                sampled) = 1%nat).
  { intros l Hl. rewrite occurrences_map_key, Hkeys. apply Honce, Hl. }
  exists rows, temp_lookup, temps.
  split; [reflexivity |]. split; [reflexivity |]. split; [exact Etemps |].
  split; [exact Hlen |]. split; [exact Hmost |]. split; [exact Honce |].
  split; [rewrite (merge_one_to_one _ _ Hpartner); apply Permutation_refl |].
  split.
  - intros t Ht. apply merge_In in Ht. destruct Ht as [r [_ [Hr [Hk Hq]]]].
    destruct (Hnth r Hr) as [i [Hi Hti]].
    exists i, (temp_key r). rewrite Hq. auto.
  - intros t1 t2 Ht1 Ht2 Hk.
    apply merge_In in Ht1, Ht2.
    destruct Ht1 as [r1 [Hl1 [Hr1 [Hk1 ->]]]].
    destruct Ht2 as [r2 [Hl2 [Hr2 [Hk2 ->]]]].
    f_equal.
    apply (singleton_filter
             (fun r => key_eqb (lookup_key (individual t1)) (temp_key r))
             sampled r1 r2 (Hpartner _ Hl1) Hr1 Hk1 Hr2).
    eapply key_eqb_trans; eassumption.
Qed.

Lemma C9_one_temperature_per_key_witness :
  exists rows temp_lookup temps,
    add_stackID_july specimens_1900 = Ok rows /\
    temp_lookup = drop_duplicates (map lookup_key rows) /\
    get_temps_list year_1900
      (map (fun k => (key_longitude k, key_decimallatitude k)) temp_lookup)
      (map key_stackID_july temp_lookup) = Ok temps /\
    List.length temps = List.length temp_lookup /\
    (forall k, (occurrences key_eqb k temp_lookup <= 1)%nat) /\
    (forall r, In r rows ->
               occurrences key_eqb (lookup_key r) temp_lookup = 1%nat) /\
    Permutation (map individual temp_data_1900) rows /\
    (forall t, In t temp_data_1900 ->
       exists i k,
         nth_error temp_lookup i = Some k /\
         key_eqb (lookup_key (individual t)) k = true /\
         nth_error temps i = Some (july_temps t)) /\
    (forall t1 t2, In t1 temp_data_1900 -> In t2 temp_data_1900 ->
       key_eqb (lookup_key (individual t1)) (lookup_key (individual t2)) = true ->
       july_temps t1 = july_temps t2).
Proof.
  apply (C9_one_temperature_per_key year_1900 specimens_1900 temp_data_1900).
  vm_compute. reflexivity.
Defined.

Example temp_lookup_1900 :
  List.length (drop_duplicates
                 (map lookup_key
                    (map (fun s => mk_Individual s
                                     (get_stackID_int64 (year s) 22793))
                         specimens_1900))) = 2%nat.
Proof. reflexivity. Qed.

(** ** The regression loop *)

Lemma unique_strings_head (l : list string) :
  l <> [] -> exists s, nth_error (unique String.eqb l) 0 = Some s.
Proof.
  destruct l as [| a l]; [congruence |]. intros _.
  assert (Ha : In a (unique String.eqb (a :: l)))
    by (apply unique_strings_In; now left).
  destruct (unique String.eqb (a :: l)) as [| s u]; [destruct Ha |].
  exists s. reflexivity.
Qed.

(** One turn of the loop on a group that is not empty: a summary with what
    the two fits returned, or the exception of the fit that raised. *)
Lemma lin_reg_group_cases {Stat : Type} (ols : ols_fit Stat)
  (g : string * list TempRow) :
  snd g <> [] ->
  match lin_reg_group ols g with
  | Ok s =>
      genus_species s = fst g /\
      exists temp_linreg lat_linreg,
        ols (temp_points (snd g)) = Ok temp_linreg /\
        ols (lat_points (snd g)) = Ok lat_linreg /\
        temp_r_squared s = rsquared temp_linreg /\
        temp_slope s = params_1 temp_linreg /\
        lat_r_squared s = rsquared lat_linreg /\
        lat_slope s = params_1 lat_linreg
  | Raise e =>
      ols (temp_points (snd g)) = Raise e \/
      ols (lat_points (snd g)) = Raise e
  end.
Proof.
  intros Hne. unfold lin_reg_group. cbv zeta.
  destruct (unique_strings_head
              (map (fun r => class (specimen (individual r))) (snd g)))
    as [sp_class Hclass].
  { destruct (snd g); [congruence | discriminate]. }
  rewrite Hclass. cbn [of_option bind].
  destruct (ols (temp_points (snd g))) as [t | e]; cbn [bind];
    [| now left].
  destruct (ols (lat_points (snd g))) as [l | e]; cbn [bind];
    [| now right].
  cbn. split; [reflexivity |]. exists t, l. repeat split; reflexivity.
Qed.

(** C7 (as the code has it). The loop has no test on the number of distinct
    temperatures or latitudes of a group and no exception handler: when it
    returns, every group, degenerate or not, has its summary, with the
    statistics the two fits returned; when it raises, the exception is that
    of a fit on one of the groups, and it ends the run. So a fit that
    raises on some group makes the whole loop raise. *)
Theorem C7_no_degenerate_guard {Stat : Type} (ols : ols_fit Stat)
  (dataset : list TempRow) (speciesID_col : TempRow -> string) :
  match lin_reg ols dataset speciesID_col with
  | Ok stats =>
      Forall2
        (fun g s =>
           genus_species s = fst g /\
           exists temp_linreg lat_linreg,
             ols (temp_points (snd g)) = Ok temp_linreg /\
             ols (lat_points (snd g)) = Ok lat_linreg /\
             temp_r_squared s = rsquared temp_linreg /\
             temp_slope s = params_1 temp_linreg /\
             lat_r_squared s = rsquared lat_linreg /\
             lat_slope s = params_1 lat_linreg)
        (groupby dataset speciesID_col) stats
  | Raise e =>
      exists g, In g (groupby dataset speciesID_col) /\
                (ols (temp_points (snd g)) = Raise e \/
                 ols (lat_points (snd g)) = Raise e)
  end.
Proof.
  unfold lin_reg.
  destruct (append_loop (lin_reg_group ols) (groupby dataset speciesID_col))
    as [stats | e] eqn:Eloop.
  - apply append_loop_Ok in Eloop.
    assert (Hne : Forall (fun g => snd g <> [])
                         (groupby dataset speciesID_col)).
    { apply Forall_forall. intros g Hg. eapply groupby_nonempty, Hg. }
    induction Eloop as [| g s groups stats Hgs _ IH]; constructor.
    + inversion Hne as [| g' groups' Hg _]; subst.
      pose proof (lin_reg_group_cases ols g Hg) as Hcases.
      rewrite Hgs in Hcases. exact Hcases.
    + apply IH. now inversion Hne.
  - apply append_loop_Raise in Eloop. destruct Eloop as [g [Hg Hraise]].
    exists g. split; [exact Hg |].
    pose proof (lin_reg_group_cases ols g (groupby_nonempty _ _ _ Hg)) as Hcases.
    rewrite Hraise in Hcases. exact Hcases.
Qed.

(** C7 as the specification words it fails on thirty individuals from one
    site: with a fit that returns, the group gets a summary; with a fit
    that raises, the exception ends the loop. *)
Lemma C7_degenerate_counterexample :
  ~ guards_degenerate_groups least_squares thirty_at_one_site species_of /\
  ~ guards_degenerate_groups strict_least_squares thirty_at_one_site species_of.
Proof.
  assert (Hg : In ("Mus musculus", thirty_at_one_site)
                  (groupby thirty_at_one_site species_of))
    by (vm_compute; left; reflexivity).
  assert (Hd : degenerate thirty_at_one_site)
    by (left; vm_compute; lia).
  split; intros H; destruct (H _ _ Hg Hd) as [stats [Hrun Hskip]].
  - vm_compute in Hrun. injection Hrun as <-.
    apply Hskip. left. reflexivity.
  - vm_compute in Hrun. discriminate.
Qed.

(** Whatever the fit does on such a group, the loop does not skip it. *)
Lemma lin_reg_never_skips {Stat : Type} (ols : ols_fit Stat)
  (dataset : list TempRow) (speciesID_col : TempRow -> string)
  (g : string * list TempRow) (stats : list (Summary Stat)) :
  In g (groupby dataset speciesID_col) ->
  lin_reg ols dataset speciesID_col = Ok stats ->
  In (fst g) (map genus_species stats).
Proof.
  unfold lin_reg. intros Hg Hrun. apply append_loop_Ok in Hrun.
  induction Hrun as [| g0 s groups stats Hgs _ IH]; [destruct Hg |].
  destruct Hg as [-> | Hg]; simpl.
  - left. unfold lin_reg_group in Hgs. cbv zeta in Hgs.
    destruct (of_option _ _); [| discriminate]. cbn [bind] in Hgs.
    destruct (ols (temp_points _)); [| discriminate]. cbn [bind] in Hgs.
    destruct (ols (lat_points _)); [| discriminate]. cbn [bind] in Hgs.
    injection Hgs as <-. reflexivity.
  - right. apply IH, Hg.
Qed.

(** Hence no fit, raising or not, makes the loop guard a degenerate group. *)
Lemma degenerate_group_not_guarded {Stat : Type} (ols : ols_fit Stat)
  (dataset : list TempRow) (speciesID_col : TempRow -> string)
  (g : string * list TempRow) :
  In g (groupby dataset speciesID_col) ->
  degenerate (snd g) ->
  ~ guards_degenerate_groups ols dataset speciesID_col.
Proof.
  intros Hg Hd Hguard. destruct g as [species species_data].
  destruct (Hguard species species_data Hg Hd) as [stats [Hrun Hskip]].
  apply Hskip.
  apply (lin_reg_never_skips ols dataset speciesID_col
           (species, species_data) stats Hg Hrun).
Qed.

(** ** Sample runs *)

Example remove_species_29_30 :
  remove_species row_index_of
    (one_site 29 "Sorex araneus" ++ one_site 30 "Mus musculus")%list species_of
  = one_site 30 "Mus musculus".
Proof. vm_compute. reflexivity. Qed.

Example get_temps_list_1900 :
  get_temps_list year_1900 two_points july_august
  = Ok [107 # 10; 109 # 10]%Q.
Proof. reflexivity. Qed.

Example get_temps_list_outside :
  get_temps_list year_1900 [(5 # 2, 3 # 2)%Q] [7] = Raise IndexError /\
  get_temps_list year_1900 [(1 # 2, 3 # 2)%Q] [13] = Raise AttributeError /\
  get_temps_list year_1900 [(1 # 2, 3 # 2)%Q] [7; 8] = Raise IndexError.
Proof. repeat split; reflexivity. Qed.

Example make_temp_data_three :
  match make_temp_data year_1900 three_specimens with
  | Ok temp_data => map july_temps temp_data
  | Raise _ => []
  end = [107 # 10; 107 # 10; 32767 # 10]%Q
  /\ make_stats_data year_1900 three_specimens = Ok [].
Proof. split; reflexivity. Qed.

Example create_month_codes_dict_zero_step :
  create_month_codes_dict 22799 22787 0 = Raise ValueError.
Proof. reflexivity. Qed.

Example int64_wrap_years (year : Z) :
  - 2 ^ 59 <= year <= 2 ^ 59 ->
  get_stackID_int64 year 22793 = get_stackID year 22793.
Proof.
  intros Hy. unfold get_stackID_int64, int64_wrap, get_stackID.
  assert (H63 : 2 ^ 63 = 9223372036854775808) by reflexivity.
  assert (H59 : 2 ^ 59 = 576460752303423488) by reflexivity.
  assert (H64 : 2 ^ 64 = 18446744073709551616) by reflexivity.
  rewrite H63, H64. rewrite H59 in Hy.
  rewrite Z.mod_small; lia.
Qed.

Example analysis_1900 :
  exists species_stats,
    analysis least_squares year_1900 specimens_1900
    = Ok (species_stats, stats_data_1900) /\
    map genus_species species_stats = ["Mus musculus"].
Proof. eexists. split; vm_compute; reflexivity. Qed.

(** * Further properties of the code *)

(** ** Looking a month up in the table *)

(** X1. [create_month_codes_dict(jan_code, dec_code, diff)[name]], for the
    [k]-th month name and a nonzero [diff]: the code [jan_code + k * diff]
    when the sequence has more than [k] values, [KeyError] otherwise. *)
Theorem month_code_lookup (jan_code dec_code diff : Z) (k : nat) :
  diff <> 0 ->
  (k < 12)%nat ->
  (month_codes <- create_month_codes_dict jan_code dec_code diff ;;
   dict_lookup month_codes (nth k month_names ""))
  = if Z.of_nat k <? range_len jan_code dec_code diff
    then Ok (jan_code + Z.of_nat k * diff)
    else Raise KeyError.
Proof.
  intros Hd Hk.
  rewrite (create_month_codes_dict_combine _ _ _ Hd). cbn [bind].
  unfold dict_lookup.
  rewrite (dict_get_combine month_names _ k);
    [| apply month_names_NoDup | now apply nth_month_name].
  rewrite nth_error_map, nth_error_seq.
  pose proof (range_len_nonneg jan_code dec_code diff Hd) as Hnn.
  destruct (Z.ltb_spec (Z.of_nat k) (range_len jan_code dec_code diff));
    destruct (Nat.ltb_spec k (Z.to_nat (range_len jan_code dec_code diff)));
    try lia; reflexivity.
Qed.

Lemma month_code_lookup_witness :
  (month_codes <- create_month_codes_dict 100 40 (-10) ;;
   dict_lookup month_codes (nth 6 month_names ""))
  = if 6 <? range_len 100 40 (-10) then Ok (100 + 6 * (-10))
    else Raise KeyError.
Proof.
  apply (month_code_lookup 100 40 (-10) 6); [discriminate | lia].
Defined.

(** X2. With the table of the script, the stack index of month [k]
    (January is 0) of [year] is [12 * (year - 1900) + k + 1]: the bands are
    counted from January 1900 as band 1, month after month. *)
Theorem stackID_counts_months_from_1900 (year : Z) (k : nat) :
  (k < 12)%nat ->
  (month_codes <- create_month_codes_dict 22799 22787 (-1) ;;
   code <- dict_lookup month_codes (nth k month_names "") ;;
   Ok (get_stackID year code))
  = Ok (12 * (year - 1900) + Z.of_nat k + 1).
Proof.
  intros Hk.
  rewrite create_month_codes_dict_combine by discriminate. cbn [bind].
  unfold dict_lookup.
  rewrite (dict_get_combine month_names _ k);
    [| apply month_names_NoDup | now apply nth_month_name].
  rewrite nth_error_map, nth_error_seq.
  change (Z.to_nat (range_len 22799 22787 (-1))) with 12%nat.
  destruct (Nat.ltb_spec k 12); [| lia].
  cbn [option_map of_option bind Nat.add]. f_equal. unfold get_stackID. lia.
Qed.

Lemma stackID_counts_months_from_1900_witness :
  (month_codes <- create_month_codes_dict 22799 22787 (-1) ;;
   code <- dict_lookup month_codes (nth 6 month_names "") ;;
   Ok (get_stackID 1950 code))
  = Ok (12 * (1950 - 1900) + 6 + 1).
Proof.
  apply (stackID_counts_months_from_1900 1950 6). lia.
Defined.

(** ** More on the append loop *)

Lemma append_loop_ext_in {A B : Type} (f g : A -> result B) (l : list A) :
  (forall a, In a l -> f a = g a) -> append_loop f l = append_loop g l.
Proof.
  induction l as [| a l IH]; intros Hfg; [reflexivity |].
  rewrite !append_loop_cons, (Hfg a (or_introl eq_refl)).
  rewrite IH; [reflexivity |]. intros a' Ha'. apply Hfg. now right.
Qed.

Lemma append_loop_app {A B : Type} (f : A -> result B) (l1 l2 : list A) :
  append_loop f (l1 ++ l2)
  = (out1 <- append_loop f l1 ;; out2 <- append_loop f l2 ;;
     Ok (out1 ++ out2)%list).
Proof.
  induction l1 as [| a l1 IH]; simpl.
  - change (append_loop f []) with (@Ok (list B) []). cbn [bind].
    destruct (append_loop f l2); reflexivity.
  - rewrite !append_loop_cons. destruct (f a) as [b | e]; cbn [bind];
      [| reflexivity].
    rewrite IH. destruct (append_loop f l1) as [out1 | e]; cbn [bind];
      [| reflexivity].
    destruct (append_loop f l2); reflexivity.
Qed.

Lemma append_loop_map {A B C : Type} (f : B -> result C) (g : A -> B)
  (l : list A) :
  append_loop f (map g l) = append_loop (fun a => f (g a)) l.
Proof.
  induction l as [| a l IH]; [reflexivity |].
  simpl map. rewrite !append_loop_cons, IH. reflexivity.
Qed.

Lemma seq_from (n len : nat) : seq n len = map (Nat.add n) (seq 0 len).
Proof.
  induction n as [| n IH].
  - simpl. now rewrite map_id.
  - rewrite <- seq_shift, IH, map_map. reflexivity.
Qed.

(** ** The sampler entry by entry *)

(** An iteration reads its own pair and band index and nothing else. *)
Lemma get_temp_entry (open_file : Dataset) (coordinates : list (Q * Q))
  (bands : list Z) (i : nat) (xy : Q * Q) (b : Z) :
  nth_error coordinates i = Some xy ->
  nth_error bands i = Some b ->
  get_temp open_file coordinates bands i = get_temp open_file [xy] [b] 0.
Proof.
  intros Hxy Hb. unfold get_temp. rewrite Hxy, Hb. reflexivity.
Qed.

Lemma get_temps_list_one (open_file : Dataset) (xy : Q * Q) (b : Z) :
  get_temps_list open_file [xy] [b]
  = (t <- get_temp open_file [xy] [b] 0 ;; Ok [t]).
Proof.
  unfold get_temps_list. simpl seq. rewrite append_loop_cons.
  destruct (get_temp open_file [xy] [b] 0); reflexivity.
Qed.

(** X3. The loop of [get_temps_list] runs over the band indices: the
    coordinate pairs beyond the last band index are never read, and a call
    that returns has returned one value per band index, which takes at
    least as many coordinate pairs. *)
Theorem get_temps_list_follows_bands (open_file : Dataset)
  (coordinates : list (Q * Q)) (bands : list Z) :
  get_temps_list open_file coordinates bands
  = get_temps_list open_file (firstn (List.length bands) coordinates) bands
  /\ forall out,
       get_temps_list open_file coordinates bands = Ok out ->
       List.length out = List.length bands /\
       (List.length bands <= List.length coordinates)%nat.
Proof.
  split.
  - unfold get_temps_list. apply append_loop_ext_in. intros i Hi.
    apply in_seq in Hi. unfold get_temp. rewrite nth_error_firstn.
    destruct (Nat.ltb_spec i (List.length bands)); [reflexivity | lia].
  - intros out Hout.
    destruct (get_temps_list_nth _ _ _ _ Hout) as [Hlen Hnth].
    split; [exact Hlen |].
    destruct (Nat.le_gt_cases (List.length bands) (List.length coordinates))
      as [Hle | Hgt]; [exact Hle |].
    destruct (Hnth (List.length coordinates) Hgt) as [t [_ Hget]].
    apply get_temp_Ok in Hget.
    destruct Hget as [xy [b [band [p [Hxy _]]]]].
    assert (nth_error coordinates (List.length coordinates) = None)
      by (apply nth_error_None; lia).
    congruence.
Qed.

(** X4. Sampling is entry by entry: on two inputs put end to end, the first
    with as many pairs as band indices, the call returns the two results
    end to end, and raises what the first failing part raises. *)
Theorem get_temps_list_app (open_file : Dataset)
  (coordinates1 coordinates2 : list (Q * Q)) (bands1 bands2 : list Z) :
  List.length coordinates1 = List.length bands1 ->
  get_temps_list open_file (coordinates1 ++ coordinates2) (bands1 ++ bands2)
  = (out1 <- get_temps_list open_file coordinates1 bands1 ;;
     out2 <- get_temps_list open_file coordinates2 bands2 ;;
     Ok (out1 ++ out2)%list).
Proof.
  intros Hlen. unfold get_temps_list.
  rewrite length_app, seq_app, append_loop_app. simpl Nat.add.
  assert (H1 : append_loop
                 (get_temp open_file (coordinates1 ++ coordinates2)
                           (bands1 ++ bands2))
                 (seq 0 (List.length bands1))
               = append_loop (get_temp open_file coordinates1 bands1)
                             (seq 0 (List.length bands1))).
  { apply append_loop_ext_in. intros i Hi. apply in_seq in Hi.
    unfold get_temp. rewrite !nth_error_app1 by lia. reflexivity. }
  assert (H2 : append_loop
                 (get_temp open_file (coordinates1 ++ coordinates2)
                           (bands1 ++ bands2))
                 (seq (List.length bands1) (List.length bands2))
               = append_loop (get_temp open_file coordinates2 bands2)
                             (seq 0 (List.length bands2))).
  { rewrite seq_from, append_loop_map.
    apply append_loop_ext_in. intros i _.
    unfold get_temp. rewrite !nth_error_app2 by lia.
    rewrite ?Hlen.
    replace (List.length bands1 + i - List.length bands1)%nat with i by lia.
    reflexivity. }
  rewrite H1, H2. reflexivity.
Qed.

Lemma get_temps_list_app_witness :
  get_temps_list year_1900 ([(1 # 2, 3 # 2)%Q] ++ [(3 # 2, 3 # 2)%Q])
                 ([7] ++ [8])
  = (out1 <- get_temps_list year_1900 [(1 # 2, 3 # 2)%Q] [7] ;;
     out2 <- get_temps_list year_1900 [(3 # 2, 3 # 2)%Q] [8] ;;
     Ok (out1 ++ out2)%list).
Proof.
  apply (get_temps_list_app year_1900 [(1 # 2, 3 # 2)%Q] [(3 # 2, 3 # 2)%Q]
           [7] [8]).
  reflexivity.
Defined.

(** ** Indexing the band array *)

Lemma axis_index_mod (n : nat) (i : Z) :
  - Z.of_nat n <= i < Z.of_nat n ->
  axis_index n i = Some (Z.to_nat (i mod Z.of_nat n)).
Proof.
  intros Hi. unfold axis_index.
  destruct (Z.leb_spec 0 i) as [Hpos | Hneg]; cbn [andb].
  - destruct (Z.ltb_spec i (Z.of_nat n)); [| lia].
    rewrite Z.mod_small by lia. reflexivity.
  - destruct (Z.leb_spec (- Z.of_nat n) i); [| lia].
    destruct (Z.ltb_spec i 0); [| lia]. cbn [andb].
    rewrite <- (Z.mod_add i 1 (Z.of_nat n)) by lia.
    rewrite Z.mod_small by lia. f_equal. f_equal. lia.
Qed.

Lemma axis_index_outside (n : nat) (i : Z) :
  i < - Z.of_nat n \/ Z.of_nat n <= i -> axis_index n i = None.
Proof.
  intros Hi. unfold axis_index.
  destruct (Z.leb_spec 0 i); destruct (Z.ltb_spec i (Z.of_nat n));
    destruct (Z.leb_spec (- Z.of_nat n) i); destruct (Z.ltb_spec i 0);
    cbn [andb]; try reflexivity; lia.
Qed.

(** The iteration for one entry whose band exists, on a raster with pixel
    sizes that are not zero. *)
Lemma get_temp_band (open_file : Dataset) (xy : Q * Q) (b : Z) (band : Band) :
  GetRasterBand open_file b = Some band ->
  Qeq_bool (geotrans_1 (GetGeoTransform open_file)) 0 = false ->
  Qeq_bool (geotrans_5 (GetGeoTransform open_file)) 0 = false ->
  get_temp open_file [xy] [b] 0
  = (packed_temp <- ndarray_getitem (ReadAsArray band) (int_row open_file xy)
                                    (int_col open_file xy) ;;
     Ok (decode band packed_temp)).
Proof.
  intros Hband H1 H5. unfold get_temp. cbn [nth_error of_option bind].
  unfold int_of_quotient. rewrite H1, H5. cbn [bind].
  rewrite Hband. reflexivity.
Qed.

(** X5. A row or column index that is negative, down to minus the size of
    its axis, raises nothing: it is counted from the far edge of the band
    array, so that a point left of (or above) the raster by up to its width
    (or height) is given the value of a pixel at the opposite side. *)
Theorem get_temps_list_negative_index_wraps (open_file : Dataset)
  (xy : Q * Q) (b : Z) (band : Band) :
  GetRasterBand open_file b = Some band ->
  Qeq_bool (geotrans_1 (GetGeoTransform open_file)) 0 = false ->
  Qeq_bool (geotrans_5 (GetGeoTransform open_file)) 0 = false ->
  - Z.of_nat (shape0 (ReadAsArray band)) <= int_row open_file xy
    < Z.of_nat (shape0 (ReadAsArray band)) ->
  - Z.of_nat (shape1 (ReadAsArray band)) <= int_col open_file xy
    < Z.of_nat (shape1 (ReadAsArray band)) ->
  get_temps_list open_file [xy] [b]
  = Ok [ decode band
           (item (ReadAsArray band)
              (Z.to_nat (int_row open_file xy
                         mod Z.of_nat (shape0 (ReadAsArray band))))
              (Z.to_nat (int_col open_file xy
                         mod Z.of_nat (shape1 (ReadAsArray band))))) ].
Proof.
  intros Hband H1 H5 Hrow Hcol.
  rewrite get_temps_list_one, (get_temp_band _ _ _ _ Hband H1 H5).
  unfold ndarray_getitem.
  rewrite (axis_index_mod _ _ Hrow), (axis_index_mod _ _ Hcol).
  reflexivity.
Qed.

(** X6. An index at or beyond the size of its axis, or below minus the
    size, raises [IndexError]. *)
Theorem get_temps_list_index_error (open_file : Dataset)
  (xy : Q * Q) (b : Z) (band : Band) :
  GetRasterBand open_file b = Some band ->
  Qeq_bool (geotrans_1 (GetGeoTransform open_file)) 0 = false ->
  Qeq_bool (geotrans_5 (GetGeoTransform open_file)) 0 = false ->
  (int_row open_file xy < - Z.of_nat (shape0 (ReadAsArray band)) \/
   Z.of_nat (shape0 (ReadAsArray band)) <= int_row open_file xy) \/
  (int_col open_file xy < - Z.of_nat (shape1 (ReadAsArray band)) \/
   Z.of_nat (shape1 (ReadAsArray band)) <= int_col open_file xy) ->
  get_temps_list open_file [xy] [b] = Raise IndexError.
Proof.
  intros Hband H1 H5 Hout.
  rewrite get_temps_list_one, (get_temp_band _ _ _ _ Hband H1 H5).
  unfold ndarray_getitem. destruct Hout as [Hrow | Hcol].
  - rewrite (axis_index_outside _ _ Hrow). reflexivity.
  - rewrite (axis_index_outside _ _ Hcol).
    destruct (axis_index _ (int_row open_file xy)); reflexivity.
Qed.

(** X7. A band index below 1 or above the number of bands raises
    [AttributeError]: [GetRasterBand] has returned [None], and the loop
    calls [ReadAsArray] on it. *)
Theorem get_temps_list_missing_band (open_file : Dataset) (xy : Q * Q)
  (b : Z) :
  b < 1 \/ Z.of_nat (List.length (raster_bands open_file)) < b ->
  Qeq_bool (geotrans_1 (GetGeoTransform open_file)) 0 = false ->
  Qeq_bool (geotrans_5 (GetGeoTransform open_file)) 0 = false ->
  get_temps_list open_file [xy] [b] = Raise AttributeError.
Proof.
  intros Hb H1 H5.
  assert (Hband : GetRasterBand open_file b = None).
  { unfold GetRasterBand. destruct (Z.leb_spec 1 b); [| reflexivity].
    apply nth_error_None. lia. }
  rewrite get_temps_list_one. unfold get_temp.
  cbn [nth_error of_option bind]. unfold int_of_quotient.
  rewrite H1, H5. cbn [bind]. rewrite Hband. reflexivity.
Qed.

(** X8. One entry that raises makes the whole call raise: the values
    sampled before it are not returned. *)
Theorem get_temps_list_one_failure_fails_all (open_file : Dataset)
  (coordinates : list (Q * Q)) (bands : list Z) (i : nat) (xy : Q * Q)
  (b : Z) (e : PyError) :
  nth_error coordinates i = Some xy ->
  nth_error bands i = Some b ->
  get_temps_list open_file [xy] [b] = Raise e ->
  exists e', get_temps_list open_file coordinates bands = Raise e'.
Proof.
  intros Hxy Hb Hone.
  destruct (get_temps_list open_file coordinates bands) as [out | e']
    eqn:Hall; [| now exists e'].
  exfalso.
  destruct (get_temps_list_nth _ _ _ _ Hall) as [_ Hnth].
  destruct (Hnth i) as [t [_ Hget]].
  { apply nth_error_Some. congruence. }
  rewrite (get_temp_entry _ _ _ _ _ _ Hxy Hb) in Hget.
  rewrite get_temps_list_one, Hget in Hone. discriminate.
Qed.

Lemma get_temps_list_negative_index_wraps_witness :
  get_temps_list year_1900 [(- (3 # 2), 3 # 2)%Q] [7] = Ok [108 # 10]%Q.
Proof.
  apply (get_temps_list_negative_index_wraps year_1900
           (- (3 # 2), 3 # 2)%Q 7 _ eq_refl eq_refl eq_refl);
    vm_compute; split; congruence.
Defined.

Lemma get_temps_list_index_error_witness :
  get_temps_list year_1900 [(5 # 2, 3 # 2)%Q] [7] = Raise IndexError.
Proof.
  apply (get_temps_list_index_error year_1900 (5 # 2, 3 # 2)%Q 7 _
           eq_refl eq_refl eq_refl).
  right. right. vm_compute. congruence.
Defined.

Lemma get_temps_list_missing_band_witness :
  get_temps_list year_1900 [(1 # 2, 3 # 2)%Q] [13] = Raise AttributeError.
Proof.
  apply (get_temps_list_missing_band year_1900 (1 # 2, 3 # 2)%Q 13);
    [right; vm_compute; reflexivity | reflexivity | reflexivity].
Defined.

Lemma get_temps_list_one_failure_fails_all_witness :
  exists e',
    get_temps_list year_1900 (two_points ++ [(5 # 2, 3 # 2)%Q])%list [7; 8; 9]
    = Raise e'.
Proof.
  apply (get_temps_list_one_failure_fails_all year_1900
           (two_points ++ [(5 # 2, 3 # 2)%Q])%list [7; 8; 9] 2
           (5 # 2, 3 # 2)%Q 9 IndexError); reflexivity.
Defined.

(** ** [int] on the quotients *)

Lemma py_int_opp (q : Q) : py_int (- q) = - py_int q.
Proof.
  destruct q as [n d]. unfold py_int. simpl. apply Z.quot_opp_l. discriminate.
Qed.

Lemma py_int_ceiling (q : Q) : (q <= 0)%Q -> py_int q = Qceiling q.
Proof.
  intros Hq. unfold Qceiling.
  rewrite <- (Z.opp_involutive (py_int q)), <- py_int_opp. f_equal.
  apply py_int_floor.
  apply Qopp_le_compat in Hq. exact Hq.
Qed.

Lemma py_int_comp (q q' : Q) : (q == q')%Q -> py_int q = py_int q'.
Proof.
  intros Heq. destruct (Qlt_le_dec q 0) as [Hneg | Hpos].
  - rewrite !py_int_ceiling.
    + now apply Qceiling_comp.
    + rewrite <- Heq. now apply Qlt_le_weak.
    + now apply Qlt_le_weak.
  - rewrite !py_int_floor.
    + now apply Qfloor_comp.
    + now rewrite <- Heq.
    + exact Hpos.
Qed.

Lemma py_int_zero (q : Q) : (- (1) < q)%Q -> (q < 1)%Q -> py_int q = 0.
Proof.
  destruct q as [n d]. unfold Qlt, py_int. simpl. intros Hlo Hhi.
  apply Z.quot_small_iff; lia.
Qed.

(** X9. [int] cuts toward zero: left of the origin (a quotient that is not
    positive) the column is the ceiling of the quotient, not its floor, and
    every point less than one pixel away from the origin on either side is
    read in column 0; the same holds for the rows. *)
Theorem int_col_row_toward_zero (open_file : Dataset) (xy : Q * Q) :
  ((col_quotient open_file xy <= 0)%Q ->
   int_col open_file xy = Qceiling (col_quotient open_file xy)) /\
  ((row_quotient open_file xy <= 0)%Q ->
   int_row open_file xy = Qceiling (row_quotient open_file xy)) /\
  ((- (1) < col_quotient open_file xy)%Q ->
   (col_quotient open_file xy < 1)%Q -> int_col open_file xy = 0) /\
  ((- (1) < row_quotient open_file xy)%Q ->
   (row_quotient open_file xy < 1)%Q -> int_row open_file xy = 0).
Proof.
  unfold int_col, int_row. repeat split.
  - apply py_int_ceiling.
  - apply py_int_ceiling.
  - apply py_int_zero.
  - apply py_int_zero.
Qed.

(** ** Sampling the deduplicated keys is sampling every specimen *)

Lemma Qeq_bool_comp (a a' b : Q) :
  (a == a')%Q -> Qeq_bool a b = Qeq_bool a' b.
Proof.
  intros Heq. apply eq_true_iff_eq. rewrite !Qeq_bool_iff.
  split; intros H; [rewrite <- Heq | rewrite Heq]; exact H.
Qed.

Lemma int_of_quotient_comp (a a' b : Q) :
  (a == a')%Q -> int_of_quotient a b = int_of_quotient a' b.
Proof.
  intros Heq. unfold int_of_quotient.
  rewrite (Qeq_bool_comp a a' 0 Heq).
  destruct (Qeq_bool b 0); [reflexivity |].
  f_equal. apply py_int_comp. now rewrite Heq.
Qed.

(** Equal keys are sampled alike. *)
Lemma get_temp_key_eqb (open_file : Dataset) (k1 k2 : LookupKey) :
  key_eqb k1 k2 = true ->
  get_temp open_file [(key_longitude k1, key_decimallatitude k1)]
           [key_stackID_july k1] 0
  = get_temp open_file [(key_longitude k2, key_decimallatitude k2)]
             [key_stackID_july k2] 0.
Proof.
  intros Hk. apply key_eqb_true in Hk. destruct Hk as [Hx [Hy Hs]].
  unfold get_temp. cbn [nth_error of_option bind fst snd]. rewrite Hs.
  rewrite (int_of_quotient_comp (key_longitude k1 - _) (key_longitude k2 - _))
    by now rewrite Hx.
  rewrite (int_of_quotient_comp (key_decimallatitude k1 - _)
             (key_decimallatitude k2 - _)) by now rewrite Hy.
  reflexivity.
Qed.

(** What [make_temp_data] has done when it returns. *)
Lemma make_temp_data_Ok (temp_file : Dataset) (individual_data : list Specimen)
  (temp_data : list TempRow) :
  make_temp_data temp_file individual_data = Ok temp_data ->
  map individual temp_data
  = map (fun s => mk_Individual s (get_stackID_int64 (year s) 22793))
        individual_data /\
  forall t, In t temp_data ->
    get_temp temp_file
      [(longitude (specimen (individual t)),
        decimallatitude (specimen (individual t)))]
      [stackID_july (individual t)] 0
    = Ok (july_temps t).
Proof.
  unfold make_temp_data. rewrite add_stackID_july_Ok. cbn [bind].
  set (rows := map _ individual_data).
  set (temp_lookup := drop_duplicates (map lookup_key rows)).
  unfold sample_temp_lookup.
  destruct (get_temps_list temp_file _ _) as [temps |] eqn:Etemps;
    [| discriminate].
  cbn [bind].
  destruct (set_july_temps temp_lookup temps) as [sampled |] eqn:Eset;
    [| discriminate].
  cbn [bind]. intros H. injection H as <-.
  destruct (set_july_temps_Ok _ _ _ Eset) as [Hlen [Hkeys Hnth]].
  split.
  - apply merge_one_to_one. intros l Hl.
    rewrite occurrences_map_key, Hkeys.
    apply unique_once;
      [apply key_eqb_refl | apply key_eqb_sym | apply key_eqb_trans |].
    now apply in_map.
  - intros t Ht. apply merge_In in Ht. destruct Ht as [r [_ [Hr [Hk Hq]]]].
    destruct (Hnth r Hr) as [i [Hi Hti]].
    destruct (get_temps_list_nth _ _ _ _ Etemps) as [_ Hget].
    destruct (Hget i) as [t' [Ht' Hsample]].
    { rewrite length_map. apply nth_error_Some. congruence. }
    rewrite (get_temp_entry _ _ _ i
               (key_longitude (temp_key r), key_decimallatitude (temp_key r))
               (key_stackID_july (temp_key r))) in Hsample.
    + rewrite Hq.
      change (get_temp temp_file
                [(key_longitude (lookup_key (individual t)),
                  key_decimallatitude (lookup_key (individual t)))]
                [key_stackID_july (lookup_key (individual t))] 0
              = Ok (lookup_july_temps r)).
      rewrite (get_temp_key_eqb _ _ _ Hk), Hsample. congruence.
    + rewrite nth_error_map, Hi. reflexivity.
    + rewrite nth_error_map, Hi. reflexivity.
Qed.

(** X10. The deduplication changes no value: when [make_temp_data] returns,
    the [july_temps] of every row is what [get_temps_list] returns for the
    coordinates and the stack index of that row alone. *)
Theorem july_temps_is_own_sample (temp_file : Dataset)
  (individual_data : list Specimen) (temp_data : list TempRow) :
  make_temp_data temp_file individual_data = Ok temp_data ->
  forall t, In t temp_data ->
    get_temps_list temp_file
      [(longitude (specimen (individual t)),
        decimallatitude (specimen (individual t)))]
      [stackID_july (individual t)]
    = Ok [july_temps t].
Proof.
  intros Hrun t Ht.
  destruct (make_temp_data_Ok _ _ _ Hrun) as [_ Hsample].
  rewrite get_temps_list_one, (Hsample t Ht). reflexivity.
Qed.

Lemma july_temps_is_own_sample_witness :
  get_temps_list year_1900 [(1 # 2, 3 # 2)%Q] [7] = Ok [107 # 10]%Q.
Proof.
  apply (july_temps_is_own_sample year_1900 specimens_1900 temp_data_1900
           eq_refl
           (mk_TempRow
              (mk_Individual
                 (mk_Specimen 0 "Mus musculus" "Mammalia" 1900 (1 # 2) (3 # 2)
                              20)
                 7)
              (107 # 10))).
  vm_compute. left. reflexivity.
Defined.

(** X11. One specimen that cannot be sampled stops the script before
    [temp_data] exists: if the sampler raises on the coordinates and the
    July stack index of a specimen, [make_temp_data] raises. *)
Theorem make_temp_data_fails_on_one_specimen (temp_file : Dataset)
  (individual_data : list Specimen) (s : Specimen) (e : PyError) :
  In s individual_data ->
  get_temps_list temp_file [(longitude s, decimallatitude s)]
                 [get_stackID_int64 (year s) 22793] = Raise e ->
  exists e', make_temp_data temp_file individual_data = Raise e'.
Proof.
  intros Hs Hraise.
  destruct (make_temp_data temp_file individual_data) as [temp_data | e']
    eqn:Hrun; [| now exists e'].
  exfalso.
  destruct (make_temp_data_Ok _ _ _ Hrun) as [Hrows Hsample].
  assert (Hin : In (mk_Individual s (get_stackID_int64 (year s) 22793))
                   (map individual temp_data)).
  { rewrite Hrows.
    apply (in_map (fun s0 => mk_Individual s0
                               (get_stackID_int64 (year s0) 22793))).
    exact Hs. }
  apply in_map_iff in Hin. destruct Hin as [t [Hind Ht]].
  specialize (Hsample t Ht). rewrite Hind in Hsample.
  cbn [specimen stackID_july] in Hsample.
  rewrite get_temps_list_one, Hsample in Hraise. discriminate.
Qed.

Lemma make_temp_data_fails_on_one_specimen_witness :
  exists e',
    make_temp_data year_1900
      (specimens_1900
       ++ [mk_Specimen 31 "Mus musculus" "Mammalia" 1900 (5 # 2) (3 # 2) 21])%list
    = Raise e'.
Proof.
  apply (make_temp_data_fails_on_one_specimen year_1900 _
           (mk_Specimen 31 "Mus musculus" "Mammalia" 1900 (5 # 2) (3 # 2) 21)
           IndexError).
  - apply in_or_app. right. left. reflexivity.
  - reflexivity.
Defined.

(** ** More on the species filter *)

Lemma unique_length_from {A : Type} (eqb : A -> A -> bool) (l seen : list A) :
  (List.length (fold_left (unique_step eqb) l seen)
   <= List.length seen + List.length l)%nat.
Proof.
  revert seen. induction l as [| a l IH]; intros seen; simpl; [lia |].
  specialize (IH (unique_step eqb seen a)). unfold unique_step in *.
  destruct (existsb (eqb a) seen); [lia |].
  rewrite length_app in IH. simpl in IH. lia.
Qed.

Lemma unique_length {A : Type} (eqb : A -> A -> bool) (l : list A) :
  (List.length (unique eqb l) <= List.length l)%nat.
Proof.
  apply (unique_length_from eqb l []).
Qed.

Lemma filter_all {A : Type} (f : A -> bool) (l : list A) :
  (forall a, In a l -> f a = true) -> filter f l = l.
Proof.
  induction l as [| a l IH]; intros Hall; simpl; [reflexivity |].
  rewrite (Hall a (or_introl eq_refl)). f_equal.
  apply IH. intros a' Ha'. apply Hall. now right.
Qed.

(** The group of a label after the filter: whole or empty. *)
Lemma remove_species_group {Row : Type} (row_index_col : Row -> Z)
  (dataframe : list Row) (species_col : Row -> string) (label : string) :
  filter (fun r => String.eqb (species_col r) label)
         (remove_species row_index_col dataframe species_col)
  = if (30 <=? individuals_of row_index_col dataframe species_col label)%nat
    then filter (fun r => String.eqb (species_col r) label) dataframe
    else [].
Proof.
  rewrite remove_species_filter, filter_filter_and.
  destruct (30 <=? individuals_of row_index_col dataframe species_col label)%nat
    eqn:E.
  - apply filter_ext_in. intros r _.
    destruct (String.eqb_spec (species_col r) label) as [-> |];
      [| reflexivity].
    cbn [andb]. exact E.
  - rewrite <- (filter_ext_in (fun _ => false)); [apply filter_none |].
    intros r _. destruct (String.eqb_spec (species_col r) label) as [-> |];
      [| reflexivity].
    cbn [andb]. now rewrite E.
Qed.

(** The counts of the groups that stay are the counts they had. *)
Lemma remove_species_count {Row : Type} (row_index_col : Row -> Z)
  (dataframe : list Row) (species_col : Row -> string) (r : Row) :
  In r (remove_species row_index_col dataframe species_col) ->
  individuals_of row_index_col
    (remove_species row_index_col dataframe species_col) species_col
    (species_col r)
  = individuals_of row_index_col dataframe species_col (species_col r)
  /\ (30 <= individuals_of row_index_col dataframe species_col
              (species_col r))%nat.
Proof.
  intros Hr. rewrite remove_species_filter in Hr. apply filter_In in Hr.
  destruct Hr as [_ Hr].
  unfold individuals_of at 1. rewrite remove_species_group, Hr.
  split; [reflexivity | now apply Nat.leb_le].
Qed.

(** X12. [remove_species] is idempotent: filtering its result again removes
    nothing, since the groups that stay keep all their rows. *)
Theorem remove_species_idempotent {Row : Type} (row_index_col : Row -> Z)
  (dataframe : list Row) (species_col : Row -> string) :
  remove_species row_index_col
    (remove_species row_index_col dataframe species_col) species_col
  = remove_species row_index_col dataframe species_col.
Proof.
  rewrite (remove_species_filter row_index_col
             (remove_species row_index_col dataframe species_col)).
  apply filter_all. intros r Hr.
  destruct (remove_species_count _ _ _ _ Hr) as [Heq Hge].
  rewrite Heq. now apply Nat.leb_le.
Qed.

(** X13. In the frame that [remove_species] returns every species that
    occurs has at least thirty distinct row indices, counted in that frame
    as the number of different values of [row_index] among its rows: the
    count of a species is not changed by the removal of the others. *)
Theorem remove_species_output_counts {Row : Type} (row_index_col : Row -> Z)
  (dataframe : list Row) (species_col : Row -> string) :
  let kept := remove_species row_index_col dataframe species_col in
  let group_of (label : string) (frame : list Row) :=
    filter (fun r => String.eqb (species_col r) label) frame in
  forall label, In label (map species_col kept) ->
    (30 <= distinct_row_index_count row_index_col (group_of label kept))%nat /\
    distinct_row_index_count row_index_col (group_of label kept)
    = distinct_row_index_count row_index_col (group_of label dataframe) /\
    exists values,
      NoDup values /\ (30 <= List.length values)%nat /\
      forall z, In z values <->
                exists r, In r kept /\ species_col r = label /\
                          row_index_col r = z.
Proof.
  intros kept group_of label Hl.
  apply in_map_iff in Hl. destruct Hl as [r [<- Hr]].
  destruct (remove_species_count _ _ _ _ Hr) as [Heq Hge].
  fold kept in Heq. unfold individuals_of in Heq, Hge.
  rewrite !n_unique_row_index_distinct in Heq.
  rewrite n_unique_row_index_distinct in Hge.
  fold (group_of (species_col r) kept) in Heq.
  fold (group_of (species_col r) dataframe) in Heq, Hge.
  split; [lia |]. split; [exact Heq |].
  exists (nodup Z.eq_dec (map row_index_col (group_of (species_col r) kept))).
  split; [apply NoDup_nodup |]. split.
  - change (30 <= distinct_row_index_count row_index_col
                    (group_of (species_col r) kept))%nat. lia.
  - intros z. rewrite nodup_In, in_map_iff. unfold group_of.
    split.
    + intros [r0 [Hz Hr0]]. apply filter_In in Hr0. destruct Hr0 as [Hin Hlab].
      apply String.eqb_eq in Hlab. exists r0. auto.
    + intros [r0 [Hin [Hlab Hz]]]. exists r0. split; [exact Hz |].
      apply filter_In. split; [exact Hin |]. now apply String.eqb_eq.
Qed.

(** X14. A species with fewer than thirty rows is removed, whatever its row
    indices are; in particular a frame of fewer than thirty rows is
    emptied. *)
Theorem remove_species_small_group {Row : Type} (row_index_col : Row -> Z)
  (dataframe : list Row) (species_col : Row -> string) :
  (forall label,
      (List.length (filter (fun r => String.eqb (species_col r) label)
                           dataframe) < 30)%nat ->
      filter (fun r => String.eqb (species_col r) label)
             (remove_species row_index_col dataframe species_col) = []) /\
  ((List.length dataframe < 30)%nat ->
   remove_species row_index_col dataframe species_col = []).
Proof.
  assert (Hcount : forall label,
             (individuals_of row_index_col dataframe species_col label
              <= List.length (filter (fun r => String.eqb (species_col r) label)
                                     dataframe))%nat).
  { intros label. unfold individuals_of, n_unique_row_index.
    etransitivity; [apply unique_length |]. now rewrite length_map. }
  split.
  - intros label Hlen. rewrite remove_species_group.
    destruct (Nat.leb_spec 30
                (individuals_of row_index_col dataframe species_col label));
      [| reflexivity].
    specialize (Hcount label). lia.
  - intros Hlen. rewrite remove_species_filter.
    rewrite <- (filter_ext_in (fun _ => false)); [apply filter_none |].
    intros r _. symmetry. apply Nat.leb_gt.
    specialize (Hcount (species_col r)).
    pose proof (filter_length_le
                  (fun r0 => String.eqb (species_col r0) (species_col r))
                  dataframe).
    lia.
Qed.

Lemma remove_species_output_counts_witness :
  let dataframe :=
    (one_site 29 "Sorex araneus" ++ one_site 30 "Mus musculus")%list in
  let kept := remove_species row_index_of dataframe species_of in
  let group_of (label : string) (frame : list TempRow) :=
    filter (fun r => String.eqb (species_of r) label) frame in
  (30 <= distinct_row_index_count row_index_of
           (group_of "Mus musculus" kept))%nat /\
  distinct_row_index_count row_index_of (group_of "Mus musculus" kept)
  = distinct_row_index_count row_index_of (group_of "Mus musculus" dataframe)
  /\
  exists values,
    NoDup values /\ (30 <= List.length values)%nat /\
    forall z, In z values <->
              exists r, In r kept /\ species_of r = "Mus musculus" /\
                        row_index_of r = z.
Proof.
  apply (remove_species_output_counts row_index_of
           (one_site 29 "Sorex araneus" ++ one_site 30 "Mus musculus")%list
           species_of "Mus musculus").
  vm_compute. left. reflexivity.
Defined.

(** ** More on the regression loop *)



Lemma unique_strings_NoDup (l : list string) : NoDup (unique String.eqb l).
Proof.
  assert (H : forall s, (occurrences String.eqb s (unique String.eqb l) <= 1)%nat)
    by (intros s; apply unique_at_most_once;
        [apply String.eqb_refl | apply String.eqb_sym | apply string_eqb_trans]).
  induction (unique String.eqb l) as [| a u IH]; constructor.
  - intros Hin. specialize (H a). unfold occurrences in H. simpl in H.
    rewrite String.eqb_refl in H. simpl in H.
    assert (Hex : existsb (String.eqb a) u = true).
    { apply existsb_exists. exists a. split; [exact Hin | apply String.eqb_refl]. }
    apply existsb_occurrences in Hex. unfold occurrences in Hex. lia.
  - apply IH. intros s. specialize (H s). unfold occurrences in *. simpl in H.
    destruct (String.eqb s a); simpl in H; lia.
Qed.

Lemma insert_sorted_NoDup (s : string) (l : list string) :
  NoDup l -> ~ In s l -> NoDup (insert_sorted s l).
Proof.
  induction l as [| t l IH]; intros Hnd Hs; simpl.
  - constructor; [intros [] | constructor].
  - destruct (String.leb s t); [now constructor |].
    inversion Hnd as [| t' l' Ht Hl]; subst. constructor.
    + rewrite insert_sorted_In. intros [-> | Hin]; [apply Hs; now left | auto].
    + apply IH; [exact Hl | intros Hin; apply Hs; now right].
Qed.

Lemma sort_strings_NoDup (l : list string) : NoDup l -> NoDup (sort_strings l).
Proof.
  induction l as [| s l IH]; intros Hnd; simpl; [constructor |].
  inversion Hnd as [| s' l' Hs Hl]; subst.
  apply insert_sorted_NoDup; [now apply IH | now rewrite sort_strings_In].
Qed.

Lemma sort_strings_length (l : list string) :
  List.length (sort_strings l) = List.length l.
Proof.
  induction l as [| s l IH]; simpl; [reflexivity |].
  rewrite <- IH. generalize (sort_strings l). intros sorted.
  induction sorted as [| t sorted IHs]; simpl; [reflexivity |].
  destruct (String.leb s t); simpl; [reflexivity | now rewrite IHs].
Qed.

Lemma groupby_labels {Row : Type} (dataframe : list Row) (col : Row -> string) :
  map fst (groupby dataframe col)
  = sort_strings (unique String.eqb (map col dataframe)).
Proof.
  unfold groupby. rewrite map_map. simpl. apply map_id.
Qed.

Lemma lin_reg_Ok {Stat : Type} (ols : ols_fit Stat) (dataset : list TempRow)
  (speciesID_col : TempRow -> string) (stats : list (Summary Stat)) :
  lin_reg ols dataset speciesID_col = Ok stats ->
  Forall2 (fun g s => lin_reg_group ols g = Ok s)
          (groupby dataset speciesID_col) stats.
Proof.
  unfold lin_reg. apply append_loop_Ok.
Qed.

(** The fields of a summary that do not come from the fits. *)
Lemma lin_reg_group_fields {Stat : Type} (ols : ols_fit Stat)
  (g : string * list TempRow) (s : Summary Stat) :
  lin_reg_group ols g = Ok s ->
  genus_species s = fst g /\
  individuals s = n_unique_row_index row_index_of (snd g) /\
  hemisphere s
  = (if Qlt_bool (mean (map (fun r => decimallatitude (specimen (individual r)))
                            (snd g))) 0
     then "south" else "north") /\
  nth_error (unique String.eqb
               (map (fun r => class (specimen (individual r))) (snd g))) 0
  = Some (summary_class s).
Proof.
  unfold lin_reg_group. cbv zeta.
  destruct (nth_error _ 0) as [sp_class |] eqn:Eclass; [| discriminate].
  cbn [of_option bind].
  destruct (ols (temp_points (snd g))); [| discriminate]. cbn [bind].
  destruct (ols (lat_points (snd g))); [| discriminate]. cbn [bind].
  intros H. injection H as <-. cbn. repeat split; reflexivity.
Qed.

Lemma Forall2_In_r {A B : Type} (P : A -> B -> Prop) (l : list A)
  (l' : list B) (b : B) :
  Forall2 P l l' -> In b l' -> exists a, In a l /\ P a b.
Proof.
  induction 1 as [| a0 b0 l l' Hab _ IH]; intros Hin; [destruct Hin |].
  destruct Hin as [<- | Hin].
  - exists a0. split; [now left | exact Hab].
  - destruct (IH Hin) as [a [Ha HP]]. exists a. split; [now right | exact HP].
Qed.

Lemma Forall2_map_eq {A B C : Type} (f : A -> C) (g : B -> C) (l : list A)
  (l' : list B) :
  Forall2 (fun a b => g b = f a) l l' -> map g l' = map f l.
Proof.
  induction 1 as [| a b l l' Hab _ IH]; simpl; [reflexivity |].
  now rewrite Hab, IH.
Qed.

(** X15. When [lin_reg] returns, its result has one summary per species of
    the data set: the labels of the summaries are the labels that occur in
    the species column, each once. *)
Theorem lin_reg_one_summary_per_species {Stat : Type} (ols : ols_fit Stat)
  (dataset : list TempRow) (speciesID_col : TempRow -> string)
  (stats : list (Summary Stat)) :
  lin_reg ols dataset speciesID_col = Ok stats ->
  NoDup (map genus_species stats) /\
  (forall label, In label (map genus_species stats) <->
                 In label (map speciesID_col dataset)) /\
  List.length stats
  = List.length (unique String.eqb (map speciesID_col dataset)).
Proof.
  intros Hrun. apply lin_reg_Ok in Hrun.
  assert (Hlabels : map genus_species stats
                    = sort_strings (unique String.eqb
                                      (map speciesID_col dataset))).
  { rewrite <- groupby_labels. apply Forall2_map_eq.
    eapply Forall2_impl; [| exact Hrun].
    intros g s Hgs. now apply lin_reg_group_fields in Hgs. }
  split; [| split].
  - rewrite Hlabels. apply sort_strings_NoDup, unique_strings_NoDup.
  - intros label. rewrite Hlabels, sort_strings_In, unique_strings_In.
    reflexivity.
  - apply Forall2_length in Hrun. rewrite <- Hrun.
    unfold groupby. rewrite length_map. apply sort_strings_length.
Qed.

Lemma lin_reg_one_summary_per_species_witness :
  NoDup (map genus_species
           [ mk_Summary "Mus musculus" "Mammalia" 30%nat "north"
               (@None Q) (@None Q) (@None Q) (@None Q) ]) /\
  (forall label,
      In label (map genus_species
                  [ mk_Summary "Mus musculus" "Mammalia" 30%nat "north"
                      (@None Q) (@None Q) (@None Q) (@None Q) ]) <->
      In label (map species_of thirty_at_one_site)) /\
  List.length [ mk_Summary "Mus musculus" "Mammalia" 30%nat "north"
                  (@None Q) (@None Q) (@None Q) (@None Q) ]
  = List.length (unique String.eqb (map species_of thirty_at_one_site)).
Proof.
  apply (lin_reg_one_summary_per_species least_squares thirty_at_one_site
           species_of).
  vm_compute. reflexivity.
Defined.

(** Every summary is the one of the group of its label. *)
Lemma lin_reg_summary_group {Stat : Type} (ols : ols_fit Stat)
  (dataset : list TempRow) (speciesID_col : TempRow -> string)
  (stats : list (Summary Stat)) (s : Summary Stat) :
  lin_reg ols dataset speciesID_col = Ok stats ->
  In s stats ->
  In (genus_species s) (map speciesID_col dataset) /\
  lin_reg_group ols
    (genus_species s,
     filter (fun r => String.eqb (speciesID_col r) (genus_species s)) dataset)
  = Ok s.
Proof.
  intros Hrun Hs. apply lin_reg_Ok in Hrun.
  destruct (Forall2_In_r _ _ _ _ Hrun Hs) as [[label data] [Hg Hgs]].
  pose proof (lin_reg_group_fields _ _ _ Hgs) as [Hlabel _].
  simpl in Hlabel. subst label.
  apply groupby_In in Hg. destruct Hg as [Hin ->].
  split; assumption.
Qed.

(** *** The sign of the mean latitude *)







(** ** The whole script *)

(** X17. When [Analysis_VN_CY.py] runs to its end, every species in
    [species_stats] has at least thirty individuals, and [species_stats] is
    empty exactly when no row is left in [stats_data]. *)
Theorem analysis_thirty_individuals {Stat : Type} (ols : ols_fit Stat)
  (temp_file : Dataset) (individual_data : list Specimen)
  (species_stats : list (Summary Stat)) (stats_data : list TempRow) :
  analysis ols temp_file individual_data = Ok (species_stats, stats_data) ->
  make_stats_data temp_file individual_data = Ok stats_data /\
  Forall (fun s => (30 <= individuals s)%nat) species_stats /\
  (species_stats = [] <-> stats_data = []).
Proof.
  unfold analysis.
  destruct (make_stats_data temp_file individual_data) as [data |] eqn:Edata;
    [| discriminate].
  cbn [bind].
  destruct (lin_reg ols data species_of) as [stats |] eqn:Estats;
    [| discriminate].
  cbn [bind]. intros H. injection H as -> ->.
  split; [reflexivity |]. split.
  - apply Forall_forall. intros s Hs.
    destruct (lin_reg_summary_group _ _ _ _ _ Estats Hs) as [Hin Hgs].
    apply lin_reg_group_fields in Hgs. destruct Hgs as [_ [Hn _]].
    cbn [snd] in Hn. rewrite Hn.
    unfold make_stats_data in Edata.
    destruct (make_temp_data temp_file individual_data) as [temp_data |];
      [| discriminate].
    cbn [bind] in Edata. injection Edata as <-.
    apply in_map_iff in Hin. destruct Hin as [r [Hr Hin]].
    destruct (remove_species_count _ _ _ _ Hin) as [Heq Hge].
    rewrite Hr in Heq, Hge. unfold individuals_of in Heq. rewrite Heq.
    exact Hge.
  - apply lin_reg_Ok in Estats. apply Forall2_length in Estats.
    unfold groupby in Estats. rewrite length_map, sort_strings_length in Estats.
    split; intros ->.
    + simpl in Estats.
      destruct stats_data as [| r rest]; [reflexivity |].
      exfalso.
      assert (In (species_of r) (unique String.eqb (map species_of (r :: rest))))
        by (apply unique_strings_In; now left).
      destruct (unique String.eqb (map species_of (r :: rest)));
        [contradiction | discriminate].
    + destruct species_stats; [reflexivity | discriminate].
Qed.

Lemma analysis_thirty_individuals_witness :
  make_stats_data year_1900 specimens_1900 = Ok stats_data_1900 /\
  Forall (fun s => (30 <= individuals s)%nat) species_stats_1900 /\
  (species_stats_1900 = [] <-> stats_data_1900 = []).
Proof.
  apply (analysis_thirty_individuals least_squares year_1900 specimens_1900).
  vm_compute. reflexivity.
Defined.

Lemma filter_split_Permutation {A : Type} (f : A -> bool) (l : list A) :
  Permutation (filter f l ++ filter (fun a => negb (f a)) l) l.
Proof.
  induction l as [| a l IH]; simpl; [constructor |].
  destruct (f a); simpl.
  - now constructor.
  - apply Permutation_sym, Permutation_cons_app, Permutation_sym, IH.
Qed.

(** X18. The script invents no record and repeats none: the rows of
    [stats_data] are specimens of the input file, each input row used at
    most once, and each carries the July stack index of its own year. *)
Theorem stats_data_rows_are_specimens (temp_file : Dataset)
  (individual_data : list Specimen) (stats_data : list TempRow) :
  make_stats_data temp_file individual_data = Ok stats_data ->
  (exists dropped,
      Permutation (map (fun t => specimen (individual t)) stats_data ++ dropped)
                  individual_data) /\
  forall t, In t stats_data ->
    stackID_july (individual t)
    = get_stackID_int64 (year (specimen (individual t))) 22793.
Proof.
  unfold make_stats_data.
  destruct (make_temp_data temp_file individual_data) as [temp_data |] eqn:Etemp;
    [| discriminate].
  cbn [bind]. intros H. injection H as <-.
  destruct (make_temp_data_Ok _ _ _ Etemp) as [Hrows _].
  rewrite remove_species_filter, filter_filter_and.
  set (keep := fun a : TempRow => (_ && _)%bool).
  split.
  - exists (map (fun t => specimen (individual t))
                (filter (fun a => negb (keep a)) temp_data)).
    rewrite <- map_app.
    replace individual_data
      with (map (fun t => specimen (individual t)) temp_data).
    + apply Permutation_map, filter_split_Permutation.
    + rewrite <- (map_map individual specimen), Hrows, map_map. simpl.
      apply map_id.
  - intros t Ht. apply filter_In in Ht. destruct Ht as [Ht _].
    assert (Hin : In (individual t) (map individual temp_data))
      by now apply in_map.
    rewrite Hrows in Hin. apply in_map_iff in Hin.
    destruct Hin as [s [<- _]]. reflexivity.
Qed.

Lemma stats_data_rows_are_specimens_witness :
  (exists dropped,
      Permutation
        (map (fun t => specimen (individual t)) stats_data_1900 ++ dropped)
        specimens_1900) /\
  forall t, In t stats_data_1900 ->
    stackID_july (individual t)
    = get_stackID_int64 (year (specimen (individual t))) 22793.
Proof.
  apply (stats_data_rows_are_specimens year_1900 specimens_1900
           stats_data_1900).
  vm_compute. reflexivity.
Defined.

Example temp_stats_lagged_keys :
  map (fun s => (TempStat.genus_species s, TempStat.past_year s))
      temp_stats_lagged
  = [("Mus musculus", 0); ("Mus musculus", 1)]
  /\ map LatStat.hemisphere lat_stats_lagged = ["north"].
Proof. split; reflexivity. Qed.

(** ** The extend loop and [groupby] on integers *)

Lemma extend_loop_from {A B : Type} (f : A -> result (list B)) (l : list A)
  (acc : list B) :
  fold_left (fun acc a => out <- acc ;; bs <- f a ;; Ok (out ++ bs)%list)
            l (Ok acc)
  = (out <- extend_loop f l ;; Ok (acc ++ out)%list).
Proof.
  unfold extend_loop. revert acc.
  induction l as [| a l IH]; intros acc; simpl.
  - now rewrite app_nil_r.
  - destruct (f a) as [bs | e]; simpl.
    + rewrite (IH (acc ++ bs)%list), (IH bs).
      destruct (fold_left _ l (Ok [])) as [out | e]; simpl; [| reflexivity].
      now rewrite <- app_assoc.
    + clear IH. induction l as [| a' l IH]; simpl; auto.
Qed.

Lemma extend_loop_cons {A B : Type} (f : A -> result (list B)) (a : A)
  (l : list A) :
  extend_loop f (a :: l)
  = (bs <- f a ;; out <- extend_loop f l ;; Ok (bs ++ out)%list).
Proof.
  unfold extend_loop at 1. simpl.
  destruct (f a) as [bs | e]; simpl.
  - apply (extend_loop_from f l bs).
  - induction l as [| a' l IH]; simpl; auto.
Qed.

Lemma extend_loop_Ok {A B : Type} (f : A -> result (list B)) (l : list A)
  (out : list B) :
  extend_loop f l = Ok out ->
  exists parts, Forall2 (fun a bs => f a = Ok bs) l parts /\
                out = List.concat parts.
Proof.
  revert out. induction l as [| a l IH]; intros out.
  - intros H. injection H as <-. exists []. split; [constructor | reflexivity].
  - rewrite extend_loop_cons.
    destruct (f a) as [bs | e] eqn:Ea; cbn [bind]; [| discriminate].
    destruct (extend_loop f l) as [rest | e]; cbn [bind]; [| discriminate].
    intros H. injection H as <-.
    destruct (IH rest eq_refl) as [parts [Hparts ->]].
    exists (bs :: parts). split; [now constructor | reflexivity].
Qed.

Lemma extend_loop_one_failure {A B : Type} (f : A -> result (list B))
  (l : list A) (a : A) (e : PyError) :
  In a l -> f a = Raise e -> exists e', extend_loop f l = Raise e'.
Proof.
  induction l as [| a0 l IH]; intros Hin Ha; [destruct Hin |].
  rewrite extend_loop_cons.
  destruct Hin as [-> | Hin].
  - rewrite Ha. now exists e.
  - destruct (f a0) as [bs | e0]; cbn [bind]; [| now exists e0].
    destruct (IH Hin Ha) as [e' ->]. now exists e'.
Qed.

Lemma unique_Z_In (l : list Z) (z : Z) : In z (unique Z.eqb l) <-> In z l.
Proof.
  assert (Htrans : forall a b c : Z,
             (a =? b) = true -> (b =? c) = true -> (a =? c) = true)
    by (intros a b c; rewrite !Z.eqb_eq; congruence).
  split.
  - apply (unique_incl Z.eqb Z.eqb_refl Z.eqb_sym Htrans).
  - intros Hz.
    pose proof (unique_once Z.eqb Z.eqb_refl Z.eqb_sym Htrans l z Hz) as H1.
    destruct (occurrences_In Z.eqb z (unique Z.eqb l)) as [u [Hu Hzu]];
      [lia |].
    apply Z.eqb_eq in Hzu. now subst u.
Qed.

Lemma sort_Z_In (l : list Z) (z : Z) : In z (sort_Z l) <-> In z l.
Proof.
  induction l as [| a l IH]; simpl; [reflexivity |].
  rewrite <- IH. generalize (sort_Z l). intros sorted.
  induction sorted as [| t sorted IHs]; simpl.
  - intuition congruence.
  - destruct (a <=? t); simpl; [intuition congruence |].
    rewrite IHs. intuition congruence.
Qed.

Lemma groupby_Z_In {Row : Type} (dataframe : list Row) (col : Row -> Z)
  (key : Z) (data : list Row) :
  In (key, data) (groupby_Z dataframe col) <->
  In key (map col dataframe) /\
  data = filter (fun r => col r =? key) dataframe.
Proof.
  unfold groupby_Z. rewrite in_map_iff. split.
  - intros [z [Heq Hz]]. injection Heq as -> <-.
    rewrite sort_Z_In, unique_Z_In in Hz. split; [exact Hz | reflexivity].
  - intros [Hz ->]. exists key. split; [reflexivity |].
    rewrite sort_Z_In, unique_Z_In. exact Hz.
Qed.

Lemma groupby_not_empty {Row : Type} (dataframe : list Row)
  (col : Row -> string) :
  dataframe <> [] -> exists g groups, groupby dataframe col = g :: groups.
Proof.
  destruct dataframe as [| r rest]; [congruence |]. intros _.
  assert (Hin : In (col r, filter (fun r0 => String.eqb (col r0) (col r))
                                  (r :: rest))
                   (groupby (r :: rest) col)).
  { apply groupby_In. split; [now left | reflexivity]. }
  destruct (groupby (r :: rest) col) as [| g groups]; [destruct Hin |].
  now exists g, groups.
Qed.

(** ** [linear_regression_temp] *)

(** The fit of one group of one lag. *)
Lemma linear_regression_temp_lags {Row : Type} `{Frame Row} {Stat : Type}
  (ols : ols_fit Stat) (species : string) (groups : list (Z * list Row))
  (acc : list (TempStat.row Stat)) :
  fold_left (fun acc lag_group =>
               stats_list <- acc ;;
               linear_regression_temp_lag ols species stats_list lag_group)
            groups (Ok acc)
  = (fitted <-
       append_loop
         (fun g => linreg <- ols (frame_temp_points (snd g)) ;;
                   Ok (TempStat.mk species (fst g) (rsquared linreg)
                                   (params_1 linreg)))
         (filter (fun g => (15 <? List.length (snd g))%nat) groups) ;;
     Ok (acc ++ fitted)%list).
Proof.
  revert acc. induction groups as [| g groups IH]; intros acc; simpl.
  - change (append_loop _ []) with (@Ok (list (TempStat.row Stat)) []).
    cbn [bind]. now rewrite app_nil_r.
  - unfold linear_regression_temp_lag at 2. cbv zeta.
    destruct (15 <? List.length (snd g))%nat.
    + rewrite append_loop_cons.
      destruct (ols (frame_temp_points (snd g))) as [linreg | e]; cbn [bind].
      * rewrite IH.
        destruct (append_loop _ _) as [fitted | e]; cbn [bind];
          [| reflexivity].
        now rewrite <- app_assoc.
      * clear IH. induction groups as [| g' groups IH]; simpl; auto.
    + apply IH.
Qed.

Lemma Forall2_In_l {A B : Type} (P : A -> B -> Prop) (l : list A)
  (l' : list B) (a : A) :
  Forall2 P l l' -> In a l -> exists b, In b l' /\ P a b.
Proof.
  induction 1 as [| a0 b0 l l' Hab _ IH]; intros Hin; [destruct Hin |].
  destruct Hin as [<- | Hin].
  - exists b0. split; [now left | exact Hab].
  - destruct (IH Hin) as [b [Hb HP]]. exists b. split; [now right | exact HP].
Qed.

(** What the body of the outer loop has done when it returns. *)
Lemma linear_regression_temp_species_Ok {Row : Type} `{Frame Row}
  {Stat : Type} (ols : ols_fit Stat) (lag : Row -> Z) (g : string * list Row)
  (stats : list (TempStat.row Stat)) :
  linear_regression_temp_species ols (Some lag) g = Ok stats ->
  stats <> [] /\
  Forall2
    (fun lag_group s =>
       exists linreg,
         ols (frame_temp_points (snd lag_group)) = Ok linreg /\
         s = TempStat.mk (fst g) (fst lag_group) (rsquared linreg)
                         (params_1 linreg))
    (filter (fun lag_group => (15 <? List.length (snd lag_group))%nat)
            (groupby_Z (snd g) lag))
    stats.
Proof.
  unfold linear_regression_temp_species. cbn [of_option bind].
  rewrite linear_regression_temp_lags.
  destruct (append_loop _ _) as [fitted |] eqn:Efit; [| discriminate].
  cbn [bind app].
  destruct fitted as [| s fitted]; [discriminate |].
  intros Heq. injection Heq as <-. split; [discriminate |].
  apply append_loop_Ok in Efit.
  eapply Forall2_impl; [| exact Efit].
  intros lag_group s' Hs'. cbv beta in Hs'.
  destruct (ols (frame_temp_points (snd lag_group))) as [linreg |];
    [| discriminate].
  injection Hs' as <-. exists linreg. split; reflexivity.
Qed.

(** X19. [DatasetAnalysis_VN.py] cannot get past its first regression: the
    frame [stats_data] has no column [lag], so that, as soon as one species
    is left after the filters, [linear_regression_temp] raises [KeyError];
    only on an empty [stats_data] does the script run to its end, with
    nothing in its four frames. *)
Theorem dataset_analysis_needs_lag {Stat : Type} (ols : ols_fit Stat)
  (temp_file : Dataset) (individual_data : list Specimen)
  (stats_data : list TempRow) :
  make_stats_data temp_file individual_data = Ok stats_data ->
  dataset_analysis ols temp_file individual_data
  = match stats_data with
    | [] => Ok ([], [], [], [])
    | _ :: _ => Raise KeyError
    end.
Proof.
  intros Hdata. unfold dataset_analysis. rewrite Hdata. cbn [bind].
  destruct stats_data as [| t rest]; [reflexivity |].
  destruct (groupby_not_empty (t :: rest) species_of) as [g [groups Hg]];
    [discriminate |].
  unfold linear_regression_temp. rewrite Hg, extend_loop_cons. reflexivity.
Qed.

Lemma dataset_analysis_needs_lag_witness :
  dataset_analysis least_squares year_1900 specimens_1900 = Raise KeyError.
Proof.
  apply (dataset_analysis_needs_lag least_squares year_1900 specimens_1900
           stats_data_1900).
  vm_compute. reflexivity.
Defined.

(** X20. [linear_regression_temp] on a frame with the lag column fits the
    groups of more than 15 rows and only those: every row of the result is
    the fit of the rows of one species and one lag, more than 15 of them,
    and every species and lag with more than 15 rows has its row. *)
Theorem linear_regression_temp_size_guard {Row : Type} `{Frame Row}
  {Stat : Type} (ols : ols_fit Stat) (dataset : list Row)
  (speciesID_col : Row -> string) (lag : Row -> Z)
  (all_stats : list (TempStat.row Stat)) :
  linear_regression_temp ols dataset speciesID_col (Some lag) = Ok all_stats ->
  let lag_data (species : string) (past_year : Z) :=
    filter (fun r => lag r =? past_year)
           (filter (fun r => String.eqb (speciesID_col r) species) dataset) in
  (forall s, In s all_stats ->
     (15 < List.length
             (lag_data (TempStat.genus_species s) (TempStat.past_year s)))%nat /\
     exists linreg,
       ols (frame_temp_points
              (lag_data (TempStat.genus_species s) (TempStat.past_year s)))
       = Ok linreg /\
       TempStat.r_squared s = rsquared linreg /\
       TempStat.slope s = params_1 linreg) /\
  (forall r, In r dataset ->
     (15 < List.length (lag_data (speciesID_col r) (lag r)))%nat ->
     exists s, In s all_stats /\
               TempStat.genus_species s = speciesID_col r /\
               TempStat.past_year s = lag r).
Proof.
  intros Hrun lag_data. unfold linear_regression_temp in Hrun.
  apply extend_loop_Ok in Hrun. destruct Hrun as [parts [Hparts ->]].
  split.
  - intros s Hs. apply in_concat in Hs. destruct Hs as [part [Hpart Hs]].
    destruct (Forall2_In_r _ _ _ _ Hparts Hpart) as [[label data] [Hg Hbody]].
    apply linear_regression_temp_species_Ok in Hbody.
    destruct Hbody as [_ Hfits]. cbn [fst snd] in Hfits.
    destruct (Forall2_In_r _ _ _ _ Hfits Hs) as [[z rows] [Hlg [linreg [Hols ->]]]].
    cbn [fst snd] in *. apply filter_In in Hlg. destruct Hlg as [Hlg Hbig].
    apply groupby_Z_In in Hlg. destruct Hlg as [_ ->].
    apply groupby_In in Hg. destruct Hg as [_ ->].
    cbn [snd] in Hbig. apply Nat.ltb_lt in Hbig.
    cbn [TempStat.genus_species TempStat.past_year TempStat.r_squared
         TempStat.slope].
    split; [exact Hbig |]. exists linreg. repeat split. exact Hols.
  - intros r Hr Hbig.
    set (g := (speciesID_col r,
               filter (fun r0 => String.eqb (speciesID_col r0) (speciesID_col r))
                      dataset)).
    assert (Hg : In g (groupby dataset speciesID_col)).
    { apply groupby_In. split; [now apply in_map | reflexivity]. }
    destruct (Forall2_In_l _ _ _ _ Hparts Hg) as [part [Hpart Hbody]].
    apply linear_regression_temp_species_Ok in Hbody.
    destruct Hbody as [_ Hfits]. cbn [fst snd] in Hfits.
    set (lg := (lag r, lag_data (speciesID_col r) (lag r))).
    assert (Hlg : In lg (filter (fun lag_group =>
                                   (15 <? List.length (snd lag_group))%nat)
                                (groupby_Z (snd g) lag))).
    { apply filter_In. split.
      - apply groupby_Z_In. split; [| reflexivity].
        apply in_map. apply filter_In. split; [exact Hr |].
        apply String.eqb_refl.
      - apply Nat.ltb_lt. exact Hbig. }
    destruct (Forall2_In_l _ _ _ _ Hfits Hlg) as [s [Hs [linreg [_ Heq]]]].
    exists s. split.
    + apply in_concat. exists part. split; assumption.
    + rewrite Heq. split; reflexivity.
Qed.

Lemma linear_regression_temp_size_guard_witness :
  let lag_data (species : string) (past_year : Z) :=
    filter (fun r => lag r =? past_year)
           (filter (fun r => String.eqb (lag_species r) species) lagged_rows) in
  (forall s, In s temp_stats_lagged ->
     (15 < List.length
             (lag_data (TempStat.genus_species s) (TempStat.past_year s)))%nat /\
     exists linreg,
       least_squares
         (frame_temp_points
            (lag_data (TempStat.genus_species s) (TempStat.past_year s)))
       = Ok linreg /\
       TempStat.r_squared s = rsquared linreg /\
       TempStat.slope s = params_1 linreg) /\
  (forall r, In r lagged_rows ->
     (15 < List.length (lag_data (lag_species r) (lag r)))%nat ->
     exists s, In s temp_stats_lagged /\
               TempStat.genus_species s = lag_species r /\
               TempStat.past_year s = lag r).
Proof.
  apply (linear_regression_temp_size_guard least_squares lagged_rows
           lag_species lag temp_stats_lagged).
  vm_compute. reflexivity.
Defined.

(** X21. A species none of whose lags has more than 15 rows makes
    [linear_regression_temp] raise, although nothing is fitted for it: its
    list of statistics is empty, and the frame made of it has no column
    [past_year] for the plot. *)
Theorem linear_regression_temp_no_large_group {Row : Type} `{Frame Row}
  {Stat : Type} (ols : ols_fit Stat) (dataset : list Row)
  (speciesID_col : Row -> string) (lag : Row -> Z) (species : string) :
  In species (map speciesID_col dataset) ->
  (forall past_year,
      (List.length
         (filter (fun r => (lag r =? past_year)%Z)
                 (filter (fun r => String.eqb (speciesID_col r) species)
                         dataset)) <= 15)%nat) ->
  linear_regression_temp_species ols (Some lag)
    (species, filter (fun r => String.eqb (speciesID_col r) species) dataset)
  = Raise KeyError /\
  exists e,
    linear_regression_temp ols dataset speciesID_col (Some lag) = Raise e.
Proof.
  intros Hin Hsmall.
  set (g := (species,
             filter (fun r => String.eqb (speciesID_col r) species) dataset)).
  assert (Hbody : linear_regression_temp_species ols (Some lag) g
                  = Raise KeyError).
  { unfold linear_regression_temp_species. cbn [of_option bind].
    rewrite linear_regression_temp_lags.
    rewrite <- (filter_ext_in (fun _ => false)).
    - rewrite filter_none. reflexivity.
    - intros [z rows] Hlg. apply groupby_Z_In in Hlg. destruct Hlg as [_ ->].
      symmetry. apply Nat.ltb_ge. apply Hsmall. }
  split; [exact Hbody |].
  apply (extend_loop_one_failure _ _ g KeyError); [| exact Hbody].
  apply groupby_In. split; [exact Hin | reflexivity].
Qed.

Lemma linear_regression_temp_no_large_group_witness :
  linear_regression_temp_species least_squares (Some lag)
    ("Mus musculus",
     filter (fun r => String.eqb (lag_species r) "Mus musculus")
            (firstn 15 lagged_rows))
  = Raise KeyError /\
  exists e,
    linear_regression_temp least_squares (firstn 15 lagged_rows) lag_species
                           (Some lag) = Raise e.
Proof.
  apply (linear_regression_temp_no_large_group least_squares
           (firstn 15 lagged_rows) lag_species lag "Mus musculus").
  - vm_compute. left. reflexivity.
  - intros past_year.
    etransitivity; [apply filter_length_le |].
    etransitivity; [apply filter_length_le |].
    vm_compute. lia.
Defined.

(** ** [linear_regression_lat] *)

(** X22. [linear_regression_lat] when it returns has one row per species,
    with the hemisphere of the mean latitude of all the rows of the species
    and the fit of its rows of lag 0 alone; when it raises, either the
    frame is not empty and has no column [lag] ([KeyError]) or a fit has
    raised. *)
Theorem linear_regression_lat_cases {Row : Type} `{Frame Row} {Stat : Type}
  (ols : ols_fit Stat) (dataset : list Row) (speciesID_col : Row -> string) :
  match linear_regression_lat ols dataset speciesID_col with
  | Ok stats =>
      Forall2
        (fun g s =>
           LatStat.genus_species s = fst g /\
           LatStat.hemisphere s
           = (if Qlt_bool (mean (map decimallatitude_col (snd g))) 0
              then "south" else "north") /\
           exists lag linreg,
             lag_column = Some lag /\
             ols (frame_lat_points (filter (fun r => lag r =? 0) (snd g)))
             = Ok linreg /\
             LatStat.r_squared s = rsquared linreg /\
             LatStat.slope s = params_1 linreg)
        (groupby dataset speciesID_col) stats
  | Raise e =>
      dataset <> [] /\
      (lag_column = None /\ e = KeyError \/
       exists lag g,
         lag_column = Some lag /\
         In g (groupby dataset speciesID_col) /\
         ols (frame_lat_points (filter (fun r => lag r =? 0) (snd g)))
         = Raise e)
  end.
Proof.
  unfold linear_regression_lat.
  destruct (append_loop _ _) as [stats | e] eqn:Eloop.
  - apply append_loop_Ok in Eloop.
    eapply Forall2_impl; [| exact Eloop].
    intros g s Hgs. unfold linear_regression_lat_species in Hgs.
    cbv zeta in Hgs.
    destruct lag_column as [lag |]; [| discriminate].
    cbn [of_option bind] in Hgs.
    destruct (ols _) as [linreg |] eqn:Eols; [| discriminate].
    cbn [bind] in Hgs. injection Hgs as <-. cbn.
    split; [reflexivity |]. split; [reflexivity |].
    exists lag, linreg. repeat split. exact Eols.
  - apply append_loop_Raise in Eloop. destruct Eloop as [g [Hg Hgs]].
    split.
    { intros ->. exact Hg. }
    unfold linear_regression_lat_species in Hgs. cbv zeta in Hgs.
    destruct lag_column as [lag |].
    + right. cbn [of_option bind] in Hgs.
      destruct (ols _) as [linreg |] eqn:Eols; [discriminate |].
      cbn [bind] in Hgs. injection Hgs as <-.
      exists lag, g. repeat split; assumption.
    + left. cbn [of_option bind] in Hgs. injection Hgs as <-.
      split; reflexivity.
Qed.

Example linear_regression_lat_lagged :
  linear_regression_lat least_squares lagged_rows lag_species
  = Ok lat_stats_lagged
  /\ linear_regression_lat least_squares stats_data_1900 species_of
     = Raise KeyError.
Proof. split; vm_compute; reflexivity. Qed.
